(** * SEIR simulator with parameter estimation

    A shallow embedding of the notebook
    [compartmental_models/SEIR Simulator with Parameter Estimation in Python.ipynb]:
    the derivative function [ode_model], the integrator wrapper [ode_solver],
    the residual function [error], the reconstruction [final] of the fitted
    curves, the MAE/RMSE cells and the fit report printed by [report_fit].

    Numbers are kept abstract behind the class [Number] and instantiated
    twice: with the real numbers (exact arithmetic, used for the algebraic
    properties) and with the kernel's binary64 floats (the arithmetic numpy
    runs, used where the behaviour on zero divisors matters). *)

From Stdlib Require Import PrimFloat SpecFloat FloatOps FloatAxioms.
From Stdlib Require Import String.
From Stdlib Require Import List Arith ZArith Lia Bool.
From Stdlib Require Import Sorted.
From Stdlib Require Import QArith Qround Qreals.
From Stdlib Require Import Reals Lra.
From Stdlib Require Uint63.
Import ListNotations.

Set Implicit Arguments.
Set Warnings "-inexact-float".

(** ** Python exceptions and results *)

Inductive exception : Type :=
| ValueError (msg : string).

Inductive result (A : Type) : Type :=
| Ok (a : A)
| Raise (e : exception).

Arguments Ok {A} a.
Arguments Raise {A} e.

Definition bind {A B : Type} (r : result A) (k : A -> result B) : result B :=
  match r with
  | Ok a => k a
  | Raise e => Raise e
  end.

Notation "x <- r ;; k" := (bind r (fun x => k))
  (at level 61, r at next level, right associativity).

(** ** The numeric interface

    What the notebook asks of its scalars: the four operations and unary
    minus of [ode_model], the ordering of time points, and [abs], [sqrt] and
    the conversion of a length used by the error metrics. *)

Class Number (F : Type) : Type := {
  add : F -> F -> F;
  sub : F -> F -> F;
  mul : F -> F -> F;
  div : F -> F -> F;
  neg : F -> F;
  absval : F -> F;
  sqroot : F -> F;
  of_nat : nat -> F;
  leq : F -> F -> Prop
}.

(** Exact arithmetic on the reals. *)
#[export] Instance real_number : Number R := {
  add := Rplus;
  sub := Rminus;
  mul := Rmult;
  div := Rdiv;
  neg := Ropp;
  absval := Rabs;
  sqroot := sqrt;
  of_nat := INR;
  leq := Rle
}.

(** IEEE 754 binary64, the [float64] of numpy: a division by zero is not an
    exception, it yields an infinity or NaN. *)
#[export] Instance float64_number : Number PrimFloat.float := {
  add := PrimFloat.add;
  sub := PrimFloat.sub;
  mul := PrimFloat.mul;
  div := PrimFloat.div;
  neg := PrimFloat.opp;
  absval := PrimFloat.abs;
  sqroot := PrimFloat.sqrt;
  of_nat := fun n => PrimFloat.of_uint63 (Uint63.of_Z (Z.of_nat n));
  leq := fun x y => PrimFloat.leb x y = true
}.

(** ** Arrays

    A compartment state is the 4-vector [S, E, I, R]; a trajectory is an
    array of shape (T, 4), one row per time point; the observed data and the
    slice [sol[:, 2:4]] are arrays of shape (T, 2). *)

Definition state (F : Type) : Type := (F * F * F * F)%type.
Definition row2 (F : Type) : Type := (F * F)%type.

Definition state_S {F : Type} (z : state F) : F := let '(s, _, _, _) := z in s.
Definition state_E {F : Type} (z : state F) : F := let '(_, e, _, _) := z in e.
Definition state_I {F : Type} (z : state F) : F := let '(_, _, i, _) := z in i.
Definition state_R {F : Type} (z : state F) : F := let '(_, _, _, r) := z in r.

(** [sol[:, 2:4]]: columns 2 and 3 of every row. *)
Definition columns_2_4 {F : Type} (sol : list (state F)) : list (row2 F) :=
  map (fun z => (state_I z, state_R z)) sol.

(** The two columns of an (n, 2) array: index 0 and index 1. *)
Inductive column : Type := Infected | Removed.

Definition entry {F : Type} (c : column) (r : row2 F) : F :=
  match c with
  | Infected => fst r
  | Removed => snd r
  end.

(** [a[:, c]]. *)
Definition take_column {F : Type} (c : column) (a : list (row2 F)) : list F :=
  map (entry c) a.

(** [a[i:j]] for [0 <= i] and [0 <= j]. *)
Definition slice {A : Type} (i j : nat) (a : list A) : list A :=
  firstn (j - i) (skipn i a).

Fixpoint zip_with {A B C : Type} (f : A -> B -> C) (xs : list A) (ys : list B)
  : list C :=
  match xs, ys with
  | x :: xs', y :: ys' => f x y :: zip_with f xs' ys'
  | _, _ => []
  end.

Definition broadcast_error : exception :=
  ValueError "operands could not be broadcast together".

Definition reshape_error : exception :=
  ValueError "cannot reshape array".

Section Arrays.
Context {F : Type} {num : Number F}.

Definition row_op (op : F -> F -> F) (a b : row2 F) : row2 F :=
  (op (fst a) (fst b), op (snd a) (snd b)).

(** An elementwise binary operation on two arrays of shapes (n, 2) and
    (m, 2) under numpy's broadcasting rule: the row counts must agree, or
    one of them must be 1, in which case that row is repeated. *)
Definition np_binop2 (op : F -> F -> F) (a b : list (row2 F))
  : result (list (row2 F)) :=
  if Nat.eqb (length a) (length b) then Ok (zip_with (row_op op) a b)
  else match a, b with
       | [ra], _ => Ok (map (fun rb => row_op op ra rb) b)
       | _, [rb] => Ok (map (fun ra => row_op op ra rb) a)
       | _, _ => Raise broadcast_error
       end.

(** The same rule for one-dimensional arrays. *)
Definition np_binop1 (op : F -> F -> F) (a b : list F) : result (list F) :=
  if Nat.eqb (length a) (length b) then Ok (zip_with op a b)
  else match a, b with
       | [x], _ => Ok (map (fun y => op x y) b)
       | _, [y] => Ok (map (fun x => op x y) a)
       | _, _ => Raise broadcast_error
       end.

(** [a.ravel()]: row-major flattening of an (n, 2) array. *)
Definition ravel (a : list (row2 F)) : list F :=
  flat_map (fun r => [fst r; snd r]) a.

Fixpoint pair_up (v : list F) : option (list (row2 F)) :=
  match v with
  | [] => Some []
  | x :: y :: rest => option_map (cons (x, y)) (pair_up rest)
  | _ => None
  end.

(** [v.reshape((n, 2))]: the size of [v] must be [2 * n]. *)
Definition reshape2 (v : list F) (n : nat) : result (list (row2 F)) :=
  match pair_up v with
  | Some m => if Nat.eqb (length m) n then Ok m else Raise reshape_error
  | None => Raise reshape_error
  end.

Definition np_sum (a : list F) : F := fold_left add a (of_nat 0).

(** [np.mean(a)] of a one-dimensional array. *)
Definition np_mean (a : list F) : F := div (np_sum a) (of_nat (length a)).

(** [a ** 2], elementwise. *)
Definition np_square (a : list F) : list F := map (fun x => mul x x) a.

Definition np_abs (a : list F) : list F := map absval a.

(** A time grid [odeint] accepts: non-empty and non-decreasing. *)
Definition time_grid (t : list F) : Prop := t <> [] /\ Sorted leq t.

(** ** The compartment model *)

(** [ode_model(z, t, beta, sigma, gamma)], operators in Python's order of
    evaluation: unary minus binds tighter than [*], and [*] and [/]
    associate to the left.  The compartments [S, E, I, R] are written
    [S_, E_, I_, R_]. *)
Definition ode_model (z : state F) (t : F) (beta sigma gamma : F) : state F :=
  let '(S_, E_, I_, R_) := z in
  let N := add (add (add S_ E_) I_) R_ in
  let dSdt := div (mul (mul (neg beta) S_) I_) N in
  let dEdt := sub (div (mul (mul beta S_) I_) N) (mul sigma E_) in
  let dIdt := sub (mul sigma E_) (mul gamma I_) in
  let dRdt := mul gamma I_ in
  (dSdt, dEdt, dIdt, dRdt).

End Arrays.

(** ** The integrator

    [scipy.integrate.odeint] is a library routine outside the repository.
    It enters through its documented contract: on a valid time grid the
    result has shape (len(t), len(y0)), "with the initial value y0 in the
    first row".  Trouble inside the solver is reported by a warning, not by
    an exception, so the result is an array in every case. *)

Class OdeInt (F : Type) {num : Number F} : Type := {
  odeint : (state F -> F -> state F) -> state F -> list F -> list (state F);
  odeint_shape : forall f y0 t, time_grid t ->
    length (odeint f y0 t) = length t;
  odeint_first_row : forall f y0 t, time_grid t ->
    nth_error (odeint f y0 t) 0 = Some y0
}.

Arguments OdeInt F {num}.

Section Euler.
Context {F : Type} {num : Number F}.

Definition axpy (h : F) (d y : state F) : state F :=
  let '(dS, dE, dI, dR) := d in
  let '(S_, E_, I_, R_) := y in
  (add S_ (mul h dS), add E_ (mul h dE), add I_ (mul h dI), add R_ (mul h dR)).

Fixpoint euler_steps (f : state F -> F -> state F) (y : state F) (t0 : F)
  (ts : list F) : list (state F) :=
  match ts with
  | [] => []
  | t1 :: ts' =>
      let y1 := axpy (sub t1 t0) (f y t0) y in
      y1 :: euler_steps f y1 t1 ts'
  end.

(** The explicit Euler method on the grid: the simplest integrator that
    meets the contract, used to run the model on concrete inputs. *)
Definition euler (f : state F -> F -> state F) (y0 : state F) (t : list F)
  : list (state F) :=
  match t with
  | [] => []
  | t0 :: ts => y0 :: euler_steps f y0 t0 ts
  end.

#[export] Instance euler_odeint : OdeInt F.
Proof.
  refine {| odeint := euler |}.
  - intros f y0 t _. destruct t as [|t0 ts]; simpl; [reflexivity|].
    f_equal. revert y0 t0.
    induction ts as [|t1 ts IH]; intros y0 t0; simpl; [reflexivity|].
    now rewrite IH.
  - intros f y0 t [Hne _].
    destruct t as [|t0 ts]; [contradiction|reflexivity].
Defined.

End Euler.

(** ** Parameters, solver and residual *)

(** An [lmfit.Parameter]: the notebook sets [value], [min] and [max]; [vary]
    keeps its default. *)
Record LmfitParameter (F : Type) : Type := {
  value : F;
  min_bound : F;
  max_bound : F;
  vary : bool
}.

(** The [lmfit.Parameters] object of the notebook, holding exactly the
    entries ['beta'], ['sigma'] and ['gamma']. *)
Record LmfitParameters (F : Type) : Type := {
  p_beta : LmfitParameter F;
  p_sigma : LmfitParameter F;
  p_gamma : LmfitParameter F
}.

(** [initial_conditions = [initE, initI, initR, initN]]. *)
Definition initial_conditions (F : Type) : Type := (F * F * F * F)%type.

Section Solver.
Context {F : Type} {num : Number F} {ode : OdeInt F}.

Definition ode_solver (t : list F) (ic : initial_conditions F)
  (params : LmfitParameters F) : list (state F) :=
  let '(initE, initI, initR, initN) := ic in
  let beta := value (p_beta params) in
  let sigma := value (p_sigma params) in
  let gamma := value (p_gamma params) in
  let initS := sub initN (add (add initE initI) initR) in
  let res :=
    odeint (fun z t => ode_model z t beta sigma gamma)
           (initS, initE, initI, initR) t in
  res.

(** [error(params, initial_conditions, tspan, data)]. *)
Definition error (params : LmfitParameters F) (ic : initial_conditions F)
  (tspan : list F) (data : list (row2 F)) : result (list F) :=
  let sol := ode_solver tspan ic params in
  d <- np_binop2 sub (columns_2_4 sol) data ;;
  Ok (ravel d).

(** [final = data + residual.reshape(data.shape)], with [residual] the
    value of [error] at the given parameters. *)
Definition final (params : LmfitParameters F) (ic : initial_conditions F)
  (tspan : list F) (data : list (row2 F)) : result (list (row2 F)) :=
  residual <- error params ic tspan data ;;
  reshaped <- reshape2 residual (length data) ;;
  np_binop2 add data reshaped.

End Solver.

(** ** Error metrics of the fitted and predicted windows *)

Section Metrics.
Context {F : Type} {num : Number F}.

(** [np.mean(np.abs(sim - obs))]. *)
Definition mae (sim obs : list F) : result F :=
  d <- np_binop1 sub sim obs ;;
  Ok (np_mean (np_abs d)).

(** [np.sqrt(np.mean((sim - obs)**2))]. *)
Definition rmse (sim obs : list F) : result F :=
  d <- np_binop1 sub sim obs ;;
  Ok (sqroot (np_mean (np_square d))).

(** The "Fitted MAE" and "Fitted RMSE" cell: rows [:days] of column [c]. *)
Definition fitted_mae (c : column) (days : nat)
  (fitted_predicted_IR observed_IR : list (row2 F)) : result F :=
  mae (take_column c (slice 0 days fitted_predicted_IR))
      (take_column c (slice 0 days observed_IR)).

Definition fitted_rmse (c : column) (days : nat)
  (fitted_predicted_IR observed_IR : list (row2 F)) : result F :=
  rmse (take_column c (slice 0 days fitted_predicted_IR))
       (take_column c (slice 0 days observed_IR)).

(** The "Predicted MAE" and "Predicted RMSE" cell: rows
    [days:observed_IR.shape[0]] of the simulation against rows [days:] of
    the observations. *)
Definition predicted_mae (c : column) (days : nat)
  (fitted_predicted_IR observed_IR : list (row2 F)) : result F :=
  mae (take_column c (slice days (length observed_IR) fitted_predicted_IR))
      (take_column c (skipn days observed_IR)).

Definition predicted_rmse (c : column) (days : nat)
  (fitted_predicted_IR observed_IR : list (row2 F)) : result F :=
  rmse (take_column c (slice days (length observed_IR) fitted_predicted_IR))
       (take_column c (skipn days observed_IR)).

End Metrics.

(** ** The error metrics in the words of the specification

    MAE is the mean absolute difference and RMSE the root of the mean
    squared difference between simulated and observed values of one column,
    over the rows [lo], ..., [hi - 1]. *)

Open Scope R_scope.

Definition cell (c : column) (a : list (row2 R)) (i : nat) : R :=
  entry c (nth i a (0, 0)).

Definition window_sum (f : nat -> R) (lo hi : nat) : R :=
  fold_right Rplus 0 (map f (seq lo (hi - lo))).

Definition mean_abs_diff (c : column) (sim obs : list (row2 R)) (lo hi : nat)
  : R :=
  window_sum (fun i => Rabs (cell c sim i - cell c obs i)) lo hi
  / INR (hi - lo).

Definition root_mean_sq_diff (c : column) (sim obs : list (row2 R))
  (lo hi : nat) : R :=
  sqrt (window_sum (fun i => (cell c sim i - cell c obs i) ^ 2) lo hi
        / INR (hi - lo)).

(** ** The fit report

    [minimize] belongs to lmfit; what the notebook holds of it is the
    "[[Fit Statistics]]" block printed by [report_fit(result)]. *)

Record FitStatistics : Type := {
  nfev : nat;
  ndata : nat;
  nvarys : nat;
  chisqr : R;
  redchi : R;
  aic : R;
  bic : R
}.

Definition report_fit_statistics : FitStatistics := {|
  nfev := 64;
  ndata := 90;
  nvarys := 3;
  chisqr := 258432955 / 10;
  redchi := 297049373 / 1000;
  aic := 113709769 / 100000;
  bic := 114459712 / 100000
|}.

(** The Gaussian least-squares form of the information criteria:
    [n * ln(RSS / n)] plus a penalty per counted parameter, 2 for Akaike
    and [ln n] for Bayes. *)
Definition neg2_log_likel (n : nat) (rss : R) : R := INR n * ln (rss / INR n).

Definition akaike (n k : nat) (rss : R) : R := neg2_log_likel n rss + 2 * INR k.

Definition bayesian (n k : nat) (rss : R) : R :=
  neg2_log_likel n rss + INR k * ln (INR n).

(** ** Rational enclosures of the exponential

    [exp x] lies between [(1 + x / 2^m) ^ (2^m)] and
    [(1 / (1 - x / 2^m)) ^ (2^m)]; the powers are taken by [m] squarings,
    each rounded to a multiple of [2^-128] in the safe direction. *)

Definition grain : positive := Pos.pow 2 128.

Definition round_down (q : Q) : Q :=
  Qmake (Qfloor (q * inject_Z (Zpos grain))%Q) grain.

Definition round_up (q : Q) : Q :=
  Qmake (Qceiling (q * inject_Z (Zpos grain))%Q) grain.

Fixpoint square_down (m : nat) (q : Q) : Q :=
  match m with
  | O => q
  | S k => square_down k (round_down (q * q)%Q)
  end.

Fixpoint square_up (m : nat) (q : Q) : Q :=
  match m with
  | O => q
  | S k => square_up k (round_up (q * q)%Q)
  end.

Definition two_to (m : nat) : Q := inject_Z (Z.pow 2 (Z.of_nat m)).

Definition exp_below (m : nat) (x : Q) : Q :=
  square_down m (round_down (1 + x / two_to m)%Q).

Definition exp_above (m : nat) (x : Q) : Q :=
  square_up m (round_up (1 / (1 - x / two_to m))%Q).

(** Certificates that [lo <= ln a <= hi], checked by evaluation. *)
Definition ln_enclosed (m : nat) (lo hi a : Q) : bool :=
  Qle_bool 0 lo && Qle_bool lo hi && Qle_bool (hi + 1) (two_to m)
  && Qle_bool (exp_above m lo) a && Qle_bool a (exp_below m hi).

(** ** The inputs of the notebook *)

(** The parameters as set before the fit: beta = 1.08, sigma = gamma = 0.02,
    each bounded by 0 and 10. *)
Definition bounded {F : Type} {num : Number F} (v : F) : LmfitParameter F :=
  {| value := v; min_bound := of_nat 0; max_bound := of_nat 10; vary := true |}.

Definition params_real : LmfitParameters R :=
  {| p_beta := bounded (108 / 100);
     p_sigma := bounded (2 / 100);
     p_gamma := bounded (2 / 100) |}.

Definition params_float : LmfitParameters PrimFloat.float :=
  {| p_beta := bounded 1.08%float;
     p_sigma := bounded 0.02%float;
     p_gamma := bounded 0.02%float |}.

(** [initial_conditions = [initE, initI, initR, initN]] of the notebook. *)
Definition notebook_conditions : initial_conditions R :=
  (1000, 47, 0, 1380000000).

(** [np.arange(0, 3, 1)]. *)
Definition three_days : list R := [0; 1; 2].

(** The all-zero state, and the all-zero [initial_conditions]: a population
    of N = 0. *)
Definition zero_state : state PrimFloat.float :=
  (0%float, 0%float, 0%float, 0%float).

(** [np.arange(0, 3, 1)] as float64. *)
Definition three_days_float : list PrimFloat.float :=
  [0%float; 1%float; 2%float].

(** Rates within the bounds of the notebook, with gamma = 2 and no
    transmission or incubation. *)
Definition fast_removal : LmfitParameters R :=
  {| p_beta := bounded 0; p_sigma := bounded 0; p_gamma := bounded 2 |}.

(** ** Day grids and the plot of [main] *)

(** [np.arange(start, stop, step)] on non-negative integers with
    [step >= 1]: the values [start + k * step] below [stop], of which there
    are ceil((stop - start) / step). *)
Definition np_arange (start stop step : nat) : list nat :=
  map (fun k => (start + k * step)%nat)
      (seq 0 ((stop - start + (step - 1)) / step)).

(** [np.arange(0, days, 1)] as handed to [odeint]. *)
Definition day_grid {F : Type} {num : Number F} (days : nat) : list F :=
  map of_nat (np_arange 0 days 1).

(** The tick spacing chosen by [main]. *)
Definition tick_step (days : nat) : nat :=
  if (days <=? 30)%nat then 1%nat
  else if (days <=? 90)%nat then 7%nat
  else 30%nat.

(** [tickvals=np.arange(0, days + 1, step)]. *)
Definition tickvals (days : nat) : list nat :=
  np_arange 0 (days + 1) (tick_step days).

(** A [go.Scatter] trace: its name and its two data arrays. *)
Record Scatter (F : Type) : Type := {
  scatter_name : string;
  scatter_x : list F;
  scatter_y : list F
}.

Section Main.
Context {F : Type} {num : Number F} {ode : OdeInt F}.

(** The assignment
    [params['beta'].value, params['sigma'].value, params['gamma'].value
     = [beta, sigma, gamma]] runs lmfit's setter on the global [params];
    the setter is taken as it comes. *)
Variable set_values : LmfitParameters F -> F -> F -> F -> LmfitParameters F.

(** [sol] in [main]. *)
Definition main_solution (params : LmfitParameters F)
  (initE initI initR initN beta sigma gamma : F) (days : nat)
  : list (state F) :=
  let initial_conditions := (initE, initI, initR, initN) in
  let params := set_values params beta sigma gamma in
  let tspan := day_grid days in
  ode_solver tspan initial_conditions params.

(** The traces [main] adds to the figure, in order; [infected] and
    [total_recovered_or_dead] are the two observed columns of
    [df_covid_history]. *)
Definition main_traces (params : LmfitParameters F)
  (initE initI initR initN beta sigma gamma : F) (days : nat)
  (param_fitting : bool) (infected total_recovered_or_dead : list F)
  : list (Scatter F) :=
  let tspan := day_grid days in
  let sol :=
    main_solution params initE initI initR initN beta sigma gamma days in
  let trace n ys :=
    {| scatter_name := n; scatter_x := tspan; scatter_y := ys |} in
  (if negb param_fitting
   then [trace "Susceptible"%string (map state_S sol);
         trace "Exposed"%string (map state_E sol)]
   else [])
  ++ [trace "Infected"%string (map state_I sol);
      trace "Recovered"%string (map state_R sol)]
  ++ (if param_fitting
      then [trace "Infections Observed"%string infected;
            trace "Recovered/Deceased Observed"%string
              total_recovered_or_dead]
      else []).

(** [fitted_predicted]: the simulation over as many days as there are
    observed rows. *)
Definition fitted_predicted (observed_IR : list (row2 F))
  (ic : initial_conditions F) (params : LmfitParameters F)
  : list (state F) :=
  let tspan_fit_pred := day_grid (length observed_IR) in
  ode_solver tspan_fit_pred ic params.

End Main.

(** [Parameter.value = v] as lmfit stores it: a value above [max] becomes
    [max], one below [min] becomes [min]; bounds and [vary] stay. *)
Definition store_value (p : LmfitParameter R) (v : R) : LmfitParameter R :=
  {| value := if Rlt_dec (max_bound p) v then max_bound p
              else if Rlt_dec v (min_bound p) then min_bound p
              else v;
     min_bound := min_bound p;
     max_bound := max_bound p;
     vary := vary p |}.

Definition assign_values (params : LmfitParameters R) (beta sigma gamma : R)
  : LmfitParameters R :=
  {| p_beta := store_value (p_beta params) beta;
     p_sigma := store_value (p_sigma params) sigma;
     p_gamma := store_value (p_gamma params) gamma |}.

(** ** The observed series

    The cell that builds [df_covid_history] from the records of the
    history service.  A count is an integer of the record; a count the
    record lacks is [None] in the row and NaN in the frame, and every
    sum or difference with it is NaN again. *)

(** [d['summary']] as its [get] method. *)
Definition Summary : Type := string -> option Z.

(** A record [d] of [covid_history]: [d.get('day')] and, when the key is
    there, [d['summary']]. *)
Record HistoryEntry : Type := {
  entry_day : option string;
  entry_summary : option Summary
}.

Inductive lookup (A : Type) : Type :=
| Found (a : A)
| KeyError (key : string).

Arguments Found {A} a.
Arguments KeyError {A} key.

(** One row of the frame under the columns [keys]. *)
Record RawRow : Type := {
  day : option string;
  total : option Z;
  confirmedCasesIndian : option Z;
  confirmedCasesForeign : option Z;
  confirmedButLocationUnidentified : option Z;
  discharged : option Z;
  deaths : option Z
}.

Definition history_row (d : HistoryEntry) : lookup RawRow :=
  match entry_summary d with
  | None => KeyError "summary"
  | Some summary =>
      Found {| day := entry_day d;
               total := summary "total"%string;
               confirmedCasesIndian := summary "confirmedCasesIndian"%string;
               confirmedCasesForeign := summary "confirmedCasesForeign"%string;
               confirmedButLocationUnidentified :=
                 summary "confirmedButLocationUnidentified"%string;
               discharged := summary "discharged"%string;
               deaths := summary "deaths"%string |}
  end.

(** The list comprehension over [covid_history]. *)
Fixpoint history_rows (covid_history : list HistoryEntry)
  : lookup (list RawRow) :=
  match covid_history with
  | [] => Found []
  | d :: rest =>
      match history_row d with
      | KeyError k => KeyError k
      | Found r =>
          match history_rows rest with
          | KeyError k => KeyError k
          | Found rs => Found (r :: rs)
          end
      end
  end.

Definition nan_binop (op : Z -> Z -> Z) (a b : option Z) : option Z :=
  match a, b with
  | Some x, Some y => Some (op x y)
  | _, _ => None
  end.

(** A row with the two columns the cell adds.  The counts are kept as
    exact integers; pandas holds them in 64 bits. *)
Record Row : Type := {
  raw : RawRow;
  infected : option Z;
  total_recovered_or_dead : option Z
}.

Definition add_columns (r : RawRow) : Row :=
  {| raw := r;
     infected :=
       nan_binop Z.sub (nan_binop Z.sub (total r) (discharged r)) (deaths r);
     total_recovered_or_dead := nan_binop Z.add (discharged r) (deaths r) |}.

(** [df_covid_history]; [sort_values] stands for
    [DataFrame.sort_values(by='day')]. *)
Definition df_covid_history (sort_values : list RawRow -> list RawRow)
  (covid_history : list HistoryEntry) : lookup (list Row) :=
  match history_rows covid_history with
  | KeyError k => KeyError k
  | Found rows => Found (map add_columns (sort_values rows))
  end.

(** Two records as the history service sends them: day, and a summary
    holding the counts [total], [discharged] and [deaths]. *)
Definition summary_of (t d x : Z) : Summary :=
  fun key =>
    if String.eqb key "total" then Some t
    else if String.eqb key "discharged" then Some d
    else if String.eqb key "deaths" then Some x
    else None.

Definition two_day_history : list HistoryEntry :=
  [ {| entry_day := Some "2020-03-10"%string;
       entry_summary := Some (summary_of 47 0 0) |};
    {| entry_day := Some "2020-03-11"%string;
       entry_summary := Some (summary_of 60 4 1) |} ].

(** ** The fit

    [minimize] and [report_fit] belong to lmfit, outside the repository.
    They enter through what lmfit documents of a [MinimizerResult]:
    [residual] is the return value of the objective function at the
    best-fit parameters, [ndata] the number of its entries, [nvarys] the
    number of parameters that vary, [chisqr] the sum of the squared
    residuals, [aic] is N ln(chisqr / N) + 2 N_varys and [bic] is
    N ln(chisqr / N) + ln(N) N_varys. *)

Definition number_varying (params : LmfitParameters R) : nat :=
  length (filter (fun p => vary p)
            [p_beta params; p_sigma params; p_gamma params]).

Definition sum_squares (v : list R) : R :=
  fold_right Rplus 0 (map (fun x => x * x) v).

(** [result.params], [result.residual] and the statistics of [result]. *)
Record MinimizerResult : Type := {
  fit_params : LmfitParameters R;
  fit_residual : list R;
  fit_statistics : FitStatistics
}.

Class LeastSquares : Type := {
  minimize : (LmfitParameters R -> result (list R)) -> LmfitParameters R ->
             result MinimizerResult;
  minimize_residual : forall fcn params r, minimize fcn params = Ok r ->
    fcn (fit_params r) = Ok (fit_residual r);
  minimize_ndata : forall fcn params r, minimize fcn params = Ok r ->
    ndata (fit_statistics r) = length (fit_residual r);
  minimize_nvarys : forall fcn params r, minimize fcn params = Ok r ->
    nvarys (fit_statistics r) = number_varying params;
  minimize_chisqr : forall fcn params r, minimize fcn params = Ok r ->
    chisqr (fit_statistics r) = sum_squares (fit_residual r);
  minimize_aic : forall fcn params r, minimize fcn params = Ok r ->
    let s := fit_statistics r in
    aic s = INR (ndata s) * ln (chisqr s / INR (ndata s))
            + 2 * INR (nvarys s);
  minimize_bic : forall fcn params r, minimize fcn params = Ok r ->
    let s := fit_statistics r in
    bic s = INR (ndata s) * ln (chisqr s / INR (ndata s))
            + ln (INR (ndata s)) * INR (nvarys s)
}.

(** The statistics lmfit derives from a residual array and a number of
    varying parameters. *)
Definition statistics_of (evals : nat) (residual : list R) (k : nat)
  : FitStatistics :=
  let n := length residual in
  let chi := sum_squares residual in
  {| nfev := evals;
     ndata := n;
     nvarys := k;
     chisqr := chi;
     redchi := chi / INR (Nat.max 1 (n - k));
     aic := INR n * ln (chi / INR n) + 2 * INR k;
     bic := INR n * ln (chi / INR n) + ln (INR n) * INR k |}.

(** A fit that stops after one evaluation of the objective, at the
    starting values: the simplest minimizer that meets the contract, used
    to run a fit on concrete inputs. *)
Definition minimize_once (fcn : LmfitParameters R -> result (list R))
  (params : LmfitParameters R) : result MinimizerResult :=
  residual <- fcn params ;;
  Ok {| fit_params := params;
        fit_residual := residual;
        fit_statistics := statistics_of 1 residual (number_varying params) |}.

#[export] Instance one_evaluation : LeastSquares.
Proof.
  refine {| minimize := minimize_once |};
    intros fcn params r; unfold minimize_once;
    destruct (fcn params) as [res|e] eqn:Hf; simpl;
    try discriminate; intros [= <-]; simpl; try reflexivity.
  exact Hf.
Defined.

(** ** Inputs in float64 *)

(** The rates 0.5, 0.2 and 0.1. *)
Definition half_fifth_tenth : LmfitParameters PrimFloat.float :=
  {| p_beta := bounded 0.5%float;
     p_sigma := bounded 0.2%float;
     p_gamma := bounded 0.1%float |}.

(** Initial conditions with a tenth of a case infectious. *)
Definition fractional_conditions : initial_conditions PrimFloat.float :=
  (1000%float, 0.1%float, 0%float, 1380000000%float).

(** [np.arange(0, 1, 1)] as float64. *)
Definition one_day_float : list PrimFloat.float := [0%float].

(** * Properties *)

(** ** The derivative function *)

(** C1: on a state (S, E, I, R) with N = S + E + I + R nonzero, [ode_model]
    returns the 4-tuple (-flow, flow - sigma E, sigma E - gamma I, gamma I)
    with flow = beta S I / N, in exact arithmetic. *)
Theorem ode_model_derivatives (S_ E_ I_ R_ t beta sigma gamma : R) :
  S_ + E_ + I_ + R_ <> 0 ->
  let N := S_ + E_ + I_ + R_ in
  ode_model (S_, E_, I_, R_) t beta sigma gamma
  = (- (beta * S_ * I_ / N),
     beta * S_ * I_ / N - sigma * E_,
     sigma * E_ - gamma * I_,
     gamma * I_).
Proof.
  intros HN N. unfold ode_model; simpl. fold N.
  replace (- beta * S_ * I_ / N) with (- (beta * S_ * I_ / N))
    by (field; exact HN).
  reflexivity.
Qed.

Lemma ode_model_derivatives_witness :
  ode_model (997, 1, 2, 0) 0 (1 / 2) (1 / 5) (1 / 10)
  = (- (1 / 2 * 997 * 2 / (997 + 1 + 2 + 0)),
     1 / 2 * 997 * 2 / (997 + 1 + 2 + 0) - 1 / 5 * 1,
     1 / 5 * 1 - 1 / 10 * 2,
     1 / 10 * 2).
Proof.
  apply (@ode_model_derivatives 997 1 2 0 0 (1 / 2) (1 / 5) (1 / 10)). lra.
Defined.

(** ** Array lemmas *)

Section ArrayFacts.
Context {F : Type} {num : Number F}.

Lemma zip_with_length {A B C : Type} (f : A -> B -> C) xs ys :
  length xs = length ys -> length (zip_with f xs ys) = length xs.
Proof.
  revert ys; induction xs as [|x xs IH]; intros [|y ys] H; simpl in *;
    try discriminate; [reflexivity|].
  f_equal. apply IH. now injection H.
Qed.

Lemma zip_with_nth_error {A B C : Type} (f : A -> B -> C) xs ys k x y :
  nth_error xs k = Some x -> nth_error ys k = Some y ->
  nth_error (zip_with f xs ys) k = Some (f x y).
Proof.
  revert ys k; induction xs as [|x' xs IH]; intros [|y' ys] [|k] Hx Hy;
    simpl in *; try discriminate.
  - now injection Hx as ->; injection Hy as ->.
  - now apply IH.
Qed.

Lemma np_binop2_same_length op (a b : list (row2 F)) :
  length a = length b ->
  np_binop2 op a b = Ok (zip_with (row_op op) a b).
Proof.
  intros H. unfold np_binop2. now rewrite H, Nat.eqb_refl.
Qed.

Lemma np_binop1_same_length op (a b : list F) :
  length a = length b -> np_binop1 op a b = Ok (zip_with op a b).
Proof.
  intros H. unfold np_binop1. now rewrite H, Nat.eqb_refl.
Qed.

Lemma np_binop2_mismatch op (a b : list (row2 F)) :
  length a <> length b -> length a <> 1%nat -> length b <> 1%nat ->
  np_binop2 op a b = Raise broadcast_error.
Proof.
  intros Hab Ha Hb. unfold np_binop2.
  apply Nat.eqb_neq in Hab. rewrite Hab.
  destruct a as [|ra [|ra' a]]; destruct b as [|rb [|rb' b]];
    simpl in *; try reflexivity; congruence.
Qed.

Lemma np_binop2_broadcast_right op (a : list (row2 F)) rb :
  length a <> 1%nat ->
  np_binop2 op a [rb] = Ok (map (fun ra => row_op op ra rb) a).
Proof.
  intros Ha. unfold np_binop2.
  destruct a as [|ra [|ra' a]]; simpl in *; try reflexivity; congruence.
Qed.

Lemma np_binop2_broadcast_left op ra (b : list (row2 F)) :
  length b <> 1%nat ->
  np_binop2 op [ra] b = Ok (map (fun rb => row_op op ra rb) b).
Proof.
  intros Hb. unfold np_binop2.
  destruct b as [|rb [|rb' b]]; simpl in *; try reflexivity; congruence.
Qed.

Lemma ravel_length (a : list (row2 F)) : length (ravel a) = (2 * length a)%nat.
Proof.
  induction a as [|r a IH]; simpl; [reflexivity|].
  rewrite IH. lia.
Qed.

Lemma ravel_nth_error (a : list (row2 F)) k r :
  nth_error a k = Some r ->
  nth_error (ravel a) (2 * k) = Some (fst r)
  /\ nth_error (ravel a) (2 * k + 1) = Some (snd r).
Proof.
  revert k; induction a as [|r' a IH]; intros [|k] H; simpl in *;
    try discriminate.
  - injection H as ->. now split.
  - replace (k + S (k + 0))%nat with (S (2 * k)) by lia.
    replace (k + S (k + 0) + 1)%nat with (S (2 * k + 1)) by lia.
    simpl. apply IH in H. exact H.
Qed.

Lemma pair_up_ravel (a : list (row2 F)) : pair_up (ravel a) = Some a.
Proof.
  induction a as [|[x y] a IH]; simpl; [reflexivity|].
  now rewrite IH.
Qed.

Lemma reshape2_ravel (a : list (row2 F)) : reshape2 (ravel a) (length a) = Ok a.
Proof.
  unfold reshape2. now rewrite pair_up_ravel, Nat.eqb_refl.
Qed.

Lemma columns_2_4_length (sol : list (state F)) :
  length (columns_2_4 sol) = length sol.
Proof. unfold columns_2_4. apply length_map. Qed.

End ArrayFacts.

(** ** The integrator wrapper and the residual function *)

Section SolverFacts.
Context {F : Type} {num : Number F} {ode : OdeInt F}.

Lemma ode_solver_length t ic (params : LmfitParameters F) :
  time_grid t -> length (ode_solver t ic params) = length t.
Proof.
  intros Ht. destruct ic as [[[initE initI] initR] initN]. simpl.
  now apply odeint_shape.
Qed.

(** C3: on a non-empty time grid the trajectory returned by [ode_solver]
    has as its row 0 exactly the state (N - (E0 + I0 + R0), E0, I0, R0). *)
Theorem ode_solver_initial_state t initE initI initR initN
  (params : LmfitParameters F) :
  time_grid t ->
  nth_error (ode_solver t (initE, initI, initR, initN) params) 0
  = Some (sub initN (add (add initE initI) initR), initE, initI, initR).
Proof.
  intros Ht. unfold ode_solver. now apply odeint_first_row.
Qed.

(** C5: for a time grid of length T and observed data of T rows, [error]
    returns a flat vector of length 2 T whose entries 2 k and 2 k + 1 are
    the simulated I and R of day k minus the observed ones: the order is
    day 0 I, day 0 R, day 1 I, day 1 R, and so on. *)
Theorem error_flat_residuals (params : LmfitParameters F) ic tspan data :
  time_grid tspan ->
  length data = length tspan ->
  exists v,
    error params ic tspan data = Ok v
    /\ length v = (2 * length tspan)%nat
    /\ forall k, (k < length tspan)%nat ->
       exists z obs,
         nth_error (ode_solver tspan ic params) k = Some z
         /\ nth_error data k = Some obs
         /\ nth_error v (2 * k) = Some (sub (state_I z) (fst obs))
         /\ nth_error v (2 * k + 1) = Some (sub (state_R z) (snd obs)).
Proof.
  intros Ht Hlen.
  pose proof (ode_solver_length ic params Ht) as Hsol.
  set (sol := ode_solver tspan ic params) in *.
  assert (Hcols : length (columns_2_4 sol) = length data)
    by (rewrite columns_2_4_length; congruence).
  exists (ravel (zip_with (row_op sub) (columns_2_4 sol) data)).
  split; [|split].
  - unfold error. fold sol. now rewrite (np_binop2_same_length _ _ _ Hcols).
  - rewrite ravel_length, zip_with_length by exact Hcols.
    rewrite columns_2_4_length. lia.
  - intros k Hk.
    destruct (nth_error sol k) as [z|] eqn:Hz;
      [|apply nth_error_None in Hz; lia].
    destruct (nth_error data k) as [obs|] eqn:Ho;
      [|apply nth_error_None in Ho; lia].
    exists z, obs. split; [reflexivity|]. split; [reflexivity|].
    assert (Hc : nth_error (columns_2_4 sol) k = Some (state_I z, state_R z)).
    { unfold columns_2_4. rewrite nth_error_map, Hz. reflexivity. }
    pose proof (zip_with_nth_error (row_op sub) _ _ _ Hc Ho) as Hzip.
    apply ravel_nth_error in Hzip. exact Hzip.
Qed.

End SolverFacts.

Lemma three_days_grid : time_grid three_days.
Proof.
  split; [discriminate|].
  repeat constructor; simpl; lra.
Qed.

Lemma ode_solver_initial_state_witness :
  nth_error (ode_solver (ode := euler_odeint) three_days
               (1000, 47, 0, 1380000000) params_real) 0
  = Some (1380000000 - (1000 + 47 + 0), 1000, 47, 0).
Proof.
  exact (@ode_solver_initial_state R _ euler_odeint three_days
           1000 47 0 1380000000 params_real three_days_grid).
Defined.

Lemma error_flat_residuals_witness :
  exists v,
    error (ode := euler_odeint) params_real notebook_conditions three_days
      [(47, 0); (50, 1); (60, 2)] = Ok v
    /\ length v = (2 * length three_days)%nat
    /\ forall k, (k < length three_days)%nat ->
       exists z obs,
         nth_error (ode_solver three_days notebook_conditions params_real) k
         = Some z
         /\ nth_error [(47, 0); (50, 1); (60, 2)] k = Some obs
         /\ nth_error v (2 * k) = Some (state_I z - fst obs)
         /\ nth_error v (2 * k + 1) = Some (state_R z - snd obs).
Proof.
  exact (@error_flat_residuals R _ euler_odeint params_real
           notebook_conditions three_days [(47, 0); (50, 1); (60, 2)]
           three_days_grid eq_refl).
Defined.

(** ** Reconstruction of the fitted curves *)

Lemma add_back_residual (cols data : list (row2 R)) :
  length cols = length data ->
  zip_with (row_op Rplus) data (zip_with (row_op Rminus) cols data) = cols.
Proof.
  revert data; induction cols as [|[i r] cols IH]; intros [|[oi or] data] H;
    simpl in *; try discriminate; [reflexivity|].
  injection H as H. rewrite (IH _ H). unfold row_op; simpl.
  do 2 f_equal; ring.
Qed.

(** ** Time grid and data of different lengths *)

(** [error] on a three-day grid with a single observed row: numpy repeats
    the row and a vector of six residuals comes back. *)
Lemma error_single_row_is_broadcast :
  exists v,
    error (ode := euler_odeint) params_real notebook_conditions three_days
      [(47, 0)] = Ok v
    /\ length three_days = 3%nat
    /\ length [(47, 0)] = 1%nat
    /\ length v = 6%nat.
Proof.
  eexists. split; [reflexivity|]. repeat split.
Qed.

(** C6, as the code has it: [error] checks no lengths itself.  When the
    grid and the data differ in length and neither length is 1, the
    subtraction raises numpy's broadcasting [ValueError].  When the data
    is a single row, that row is subtracted from every simulated row;
    when the grid is a single point, every data row is subtracted from
    its one simulated row.  Either way the differences come back
    flattened row by row, two for each row of the longer of the two. *)
Theorem error_length_mismatch {F : Type} {num : Number F} {ode : OdeInt F}
  (params : LmfitParameters F) ic tspan data :
  time_grid tspan ->
  length tspan <> length data ->
  let cols := columns_2_4 (ode_solver tspan ic params) in
  (length tspan <> 1%nat -> length data <> 1%nat ->
   error params ic tspan data = Raise broadcast_error)
  /\ (forall obs, data = [obs] ->
      let v := ravel (map (fun c => row_op sub c obs) cols) in
      error params ic tspan data = Ok v
      /\ length v = (2 * length tspan)%nat)
  /\ (length tspan = 1%nat ->
      exists c,
        cols = [c]
        /\ let v := ravel (map (fun obs => row_op sub c obs) data) in
           error params ic tspan data = Ok v
           /\ length v = (2 * length data)%nat).
Proof.
  intros Ht Hne cols.
  pose proof (ode_solver_length ic params Ht) as Hsol.
  unfold error. fold cols.
  assert (Hcols : length cols = length tspan).
  { unfold cols. rewrite columns_2_4_length. exact Hsol. }
  split; [|split].
  - intros H1 H2.
    rewrite np_binop2_mismatch; [reflexivity| | |]; congruence.
  - intros obs ->.
    rewrite np_binop2_broadcast_right by (simpl in Hne; congruence).
    split; [reflexivity|].
    rewrite ravel_length, length_map. congruence.
  - intros H1. rewrite <- Hcols in H1.
    destruct cols as [|ra [|ra' cols']]; try discriminate.
    exists ra. split; [reflexivity|].
    rewrite np_binop2_broadcast_left by (simpl in *; congruence).
    split; [reflexivity|].
    now rewrite ravel_length, length_map.
Qed.

Lemma error_length_mismatch_witness :
  error (ode := euler_odeint) params_real notebook_conditions three_days
    [(47, 0); (50, 1)] = Raise broadcast_error
  /\ (let v :=
        ravel (map (fun c => row_op sub c (47, 0))
                 (columns_2_4
                    (ode_solver (ode := euler_odeint) three_days
                       notebook_conditions params_real))) in
      error (ode := euler_odeint) params_real notebook_conditions three_days
        [(47, 0)] = Ok v
      /\ length v = (2 * length three_days)%nat).
Proof.
  split.
  - apply (@error_length_mismatch R _ euler_odeint params_real
             notebook_conditions three_days [(47, 0); (50, 1)]);
      [exact three_days_grid|simpl; discriminate..].
  - apply (@error_length_mismatch R _ euler_odeint params_real
             notebook_conditions three_days [(47, 0)] three_days_grid);
      [simpl; discriminate|reflexivity].
Defined.

(** ** A population of zero *)

Lemma flow_at_zero_is_nan (b : float) :
  PrimFloat.div (PrimFloat.mul (PrimFloat.mul b 0%float) 0%float) 0%float
  = nan.
Proof.
  apply Prim2SF_inj.
  rewrite div_spec, !mul_spec.
  change (Prim2SF 0%float) with (S754_zero false).
  change (Prim2SF nan) with S754_nan.
  destruct (Prim2SF b) as [s|s| |s m e]; reflexivity.
Qed.

Lemma sub_nan_left (x : float) : PrimFloat.sub nan x = nan.
Proof.
  apply Prim2SF_inj.
  rewrite sub_spec.
  change (Prim2SF nan) with S754_nan.
  destruct (Prim2SF x); reflexivity.
Qed.

Lemma three_days_float_grid : time_grid three_days_float.
Proof.
  split; [discriminate|].
  repeat constructor.
Qed.

(** [ode_model] on the all-zero state with the rates of the notebook: the
    call returns, and dS and dE are NaN. *)
Lemma ode_model_zero_population :
  ode_model zero_state 0%float 1.08%float 0.02%float 0.02%float
  = (nan, nan, 0%float, 0%float).
Proof. vm_compute. reflexivity. Qed.

(** C4, as the code has it: a population of zero raises no error.  In
    float64 [ode_model] divides zero by zero and returns NaN for dS and dE,
    whatever the rates, and [ode_solver] returns the array of [odeint], one
    row per grid point, whose row 0 is the all-zero state. *)
Theorem zero_population_is_not_an_error {ode : OdeInt float}
  (params : LmfitParameters float) (tspan : list float) (t : float) :
  time_grid tspan ->
  (exists dI dR,
     ode_model zero_state t (value (p_beta params)) (value (p_sigma params))
       (value (p_gamma params))
     = (nan, nan, dI, dR))
  /\ length (ode_solver tspan zero_state params) = length tspan
  /\ nth_error (ode_solver tspan zero_state params) 0 = Some zero_state.
Proof.
  intros Ht. split; [|split].
  - unfold ode_model, zero_state; simpl.
    change (PrimFloat.add (PrimFloat.add (PrimFloat.add 0 0) 0) 0)%float
      with 0%float.
    rewrite !flow_at_zero_is_nan, sub_nan_left.
    eexists. eexists. reflexivity.
  - now apply ode_solver_length.
  - unfold ode_solver, zero_state; simpl.
    change (PrimFloat.sub 0 (PrimFloat.add (PrimFloat.add 0 0) 0))%float
      with 0%float.
    now apply odeint_first_row.
Qed.

Lemma zero_population_is_not_an_error_witness :
  (exists dI dR,
     ode_model zero_state 0%float (value (p_beta params_float))
       (value (p_sigma params_float)) (value (p_gamma params_float))
     = (nan, nan, dI, dR))
  /\ length (ode_solver (ode := euler_odeint) three_days_float zero_state
               params_float) = length three_days_float
  /\ nth_error (ode_solver (ode := euler_odeint) three_days_float zero_state
                  params_float) 0 = Some zero_state.
Proof.
  exact (@zero_population_is_not_an_error euler_odeint params_float
           three_days_float 0%float three_days_float_grid).
Defined.

(** ** Error metrics *)

Lemma fold_left_Rplus (l : list R) (a : R) :
  fold_left Rplus l a = a + fold_right Rplus 0 l.
Proof.
  revert a; induction l as [|x l IH]; intros a; simpl.
  - ring.
  - rewrite IH. ring.
Qed.

Lemma slice_as_map {A : Type} (d : A) (a : list A) (lo k : nat) :
  (lo + k <= length a)%nat ->
  firstn k (skipn lo a) = map (fun i => nth i a d) (seq lo k).
Proof.
  revert lo k; induction a as [|x a IH]; intros lo k H; simpl in H.
  - assert (k = 0)%nat as -> by lia. now rewrite firstn_O.
  - destruct lo as [|lo]; simpl.
    + destruct k as [|k]; simpl; [reflexivity|].
      f_equal. rewrite <- seq_shift, map_map.
      rewrite <- (IH 0%nat k) by lia. reflexivity.
    + rewrite <- seq_shift, map_map. apply IH. lia.
Qed.

Lemma take_column_slice (c : column) (a : list (row2 R)) (lo hi : nat) :
  (lo <= hi <= length a)%nat ->
  take_column c (slice lo hi a) = map (cell c a) (seq lo (hi - lo)).
Proof.
  intros H. unfold take_column, slice, cell.
  rewrite (slice_as_map ((0, 0) : row2 R) a lo (hi - lo)) by lia.
  now rewrite map_map.
Qed.

Lemma skipn_as_slice {A : Type} (a : list A) (lo : nat) :
  skipn lo a = slice lo (length a) a.
Proof.
  unfold slice. rewrite firstn_all2; [reflexivity|].
  rewrite length_skipn. lia.
Qed.

Lemma zip_with_map {A B C D : Type} (f : A -> B -> C) (g : D -> A)
  (h : D -> B) (s : list D) :
  zip_with f (map g s) (map h s) = map (fun i => f (g i) (h i)) s.
Proof.
  induction s as [|i s IH]; simpl; [reflexivity|]. now rewrite IH.
Qed.

Lemma mae_of_window (c : column) (sim obs : list (row2 R)) (lo hi : nat) :
  (lo <= hi <= length obs)%nat -> (length obs <= length sim)%nat ->
  mae (take_column c (slice lo hi sim)) (take_column c (slice lo hi obs))
  = Ok (mean_abs_diff c sim obs lo hi).
Proof.
  intros H Hlen. unfold mae.
  rewrite !take_column_slice by lia.
  rewrite np_binop1_same_length by now rewrite !length_map.
  rewrite zip_with_map. simpl. f_equal.
  unfold np_mean, np_sum, np_abs, mean_abs_diff, window_sum; simpl.
  rewrite fold_left_Rplus, !length_map, length_seq, map_map.
  f_equal. ring.
Qed.

Lemma rmse_of_window (c : column) (sim obs : list (row2 R)) (lo hi : nat) :
  (lo <= hi <= length obs)%nat -> (length obs <= length sim)%nat ->
  rmse (take_column c (slice lo hi sim)) (take_column c (slice lo hi obs))
  = Ok (root_mean_sq_diff c sim obs lo hi).
Proof.
  intros H Hlen. unfold rmse.
  rewrite !take_column_slice by lia.
  rewrite np_binop1_same_length by now rewrite !length_map.
  rewrite zip_with_map. simpl. do 2 f_equal.
  unfold np_mean, np_sum, np_square, root_mean_sq_diff, window_sum; simpl.
  rewrite fold_left_Rplus, !length_map, length_seq, map_map, Rplus_0_l.
  do 3 f_equal.
  apply map_ext. intros i. ring.
Qed.

(** C9: for each column, the MAE cells return the mean of the absolute
    differences and the RMSE cells the square root of the mean of the
    squared differences between simulated and observed values, over the
    fit window (rows 0 to days - 1) and, separately, over the prediction
    window (rows days to the end of the observed series).  Both windows
    are taken non-empty, where the mean is defined. *)
Theorem error_metrics_per_window (c : column) (days : nat)
  (fitted_predicted_IR observed_IR : list (row2 R)) :
  (length observed_IR <= length fitted_predicted_IR)%nat ->
  ((0 < days <= length observed_IR)%nat ->
   fitted_mae c days fitted_predicted_IR observed_IR
   = Ok (mean_abs_diff c fitted_predicted_IR observed_IR 0 days)
   /\ fitted_rmse c days fitted_predicted_IR observed_IR
      = Ok (root_mean_sq_diff c fitted_predicted_IR observed_IR 0 days))
  /\ ((days < length observed_IR)%nat ->
      predicted_mae c days fitted_predicted_IR observed_IR
      = Ok (mean_abs_diff c fitted_predicted_IR observed_IR days
              (length observed_IR))
      /\ predicted_rmse c days fitted_predicted_IR observed_IR
         = Ok (root_mean_sq_diff c fitted_predicted_IR observed_IR days
                 (length observed_IR))).
Proof.
  intros Hlen. split.
  - intros Hd. unfold fitted_mae, fitted_rmse. split.
    + apply mae_of_window; lia.
    + apply rmse_of_window; lia.
  - intros Hd. unfold predicted_mae, predicted_rmse.
    rewrite (skipn_as_slice observed_IR days). split.
    + apply mae_of_window; lia.
    + apply rmse_of_window; lia.
Qed.

Lemma error_metrics_per_window_witness :
  let sim := [(1, 2); (3, 4); (5, 6)] in
  let obs := [(1, 1); (2, 2); (4, 3)] in
  (fitted_mae Infected 2 sim obs = Ok (mean_abs_diff Infected sim obs 0 2)
   /\ fitted_rmse Infected 2 sim obs
      = Ok (root_mean_sq_diff Infected sim obs 0 2))
  /\ (predicted_mae Infected 2 sim obs
      = Ok (mean_abs_diff Infected sim obs 2 3)
      /\ predicted_rmse Infected 2 sim obs
         = Ok (root_mean_sq_diff Infected sim obs 2 3)).
Proof.
  intros sim obs.
  destruct (@error_metrics_per_window Infected 2 sim obs) as [Hfit Hpred].
  - simpl. lia.
  - split; [apply Hfit|apply Hpred]; simpl; lia.
Defined.

(** ** Enclosures of the exponential and the logarithm *)

Lemma round_down_le (q : Q) : (round_down q <= q)%Q.
Proof.
  unfold round_down. rewrite Qmake_Qdiv.
  apply Qle_shift_div_r; [reflexivity|]. apply Qfloor_le.
Qed.

Lemma round_up_ge (q : Q) : (q <= round_up q)%Q.
Proof.
  unfold round_up. rewrite Qmake_Qdiv.
  apply Qle_shift_div_l; [reflexivity|]. apply Qle_ceiling.
Qed.

Lemma round_down_nonneg (q : Q) : (0 <= q)%Q -> (0 <= round_down q)%Q.
Proof.
  intros H.
  assert (Hz : (0 <= Qfloor (q * inject_Z (Zpos grain)))%Z).
  { change 0%Z with (Qfloor (inject_Z 0)).
    apply Qfloor_resp_le.
    apply Qmult_le_0_compat; [exact H|discriminate]. }
  unfold round_down, Qle. cbn [Qnum Qden]. lia.
Qed.

Lemma pow_two_succ (r : R) (k : nat) : r ^ (2 ^ S k) = (r * r) ^ (2 ^ k).
Proof.
  rewrite Nat.pow_succ_r', pow_mult. f_equal. ring.
Qed.

Lemma square_down_le (m : nat) (q : Q) :
  (0 <= q)%Q -> Q2R (square_down m q) <= Q2R q ^ (2 ^ m).
Proof.
  revert q; induction m as [|k IH]; intros q Hq.
  - simpl. lra.
  - cbn [square_down]. rewrite pow_two_succ, <- Q2R_mult.
    assert (H0 : (0 <= q * q)%Q) by now apply Qmult_le_0_compat.
    apply Rle_trans with (Q2R (round_down (q * q)) ^ (2 ^ k)).
    + apply IH. now apply round_down_nonneg.
    + apply pow_incr. split.
      * replace 0 with (Q2R 0) by (unfold Q2R; simpl; lra).
        apply Qle_Rle. now apply round_down_nonneg.
      * apply Qle_Rle, round_down_le.
Qed.

Lemma square_up_ge (m : nat) (q : Q) :
  (0 <= q)%Q -> Q2R q ^ (2 ^ m) <= Q2R (square_up m q).
Proof.
  revert q; induction m as [|k IH]; intros q Hq.
  - simpl. lra.
  - cbn [square_up]. rewrite pow_two_succ, <- Q2R_mult.
    assert (H0 : (0 <= q * q)%Q) by now apply Qmult_le_0_compat.
    apply Rle_trans with (Q2R (round_up (q * q)) ^ (2 ^ k)).
    + apply pow_incr. split.
      * replace 0 with (Q2R 0) by (unfold Q2R; simpl; lra).
        now apply Qle_Rle.
      * apply Qle_Rle, round_up_ge.
    + apply IH. apply Qle_trans with (q * q)%Q; [exact H0|apply round_up_ge].
Qed.

Lemma exp_INR_mult (n : nat) (y : R) : exp (INR n * y) = exp y ^ n.
Proof.
  induction n as [|n IH].
  - simpl. rewrite Rmult_0_l. apply exp_0.
  - rewrite S_INR, Rmult_plus_distr_r, Rmult_1_l, exp_plus, IH. simpl. ring.
Qed.

Lemma Q2R_two_to (m : nat) : Q2R (two_to m) = INR (2 ^ m).
Proof.
  unfold two_to, Q2R. cbn [Qnum Qden inject_Z].
  rewrite pow_INR, <- pow_IZR, Rinv_1, Rmult_1_r.
  reflexivity.
Qed.

Lemma two_to_pos (m : nat) : (0 < two_to m)%Q.
Proof.
  apply Rlt_Qlt. rewrite Q2R_two_to.
  replace (Q2R 0) with 0 by (unfold Q2R; simpl; lra).
  apply lt_0_INR. apply Nat.neq_0_lt_0, Nat.pow_nonzero. discriminate.
Qed.

Lemma exp_split (m : nat) (x : R) : exp x = exp (x / INR (2 ^ m)) ^ (2 ^ m).
Proof.
  rewrite <- exp_INR_mult. f_equal. field.
  apply not_0_INR, Nat.pow_nonzero. discriminate.
Qed.

Lemma Q2R_0 : Q2R 0 = 0.
Proof. unfold Q2R; simpl; lra. Qed.

Lemma Q2R_1 : Q2R 1 = 1.
Proof. unfold Q2R; simpl; lra. Qed.

Lemma INR_two_to_pos (m : nat) : 0 < INR (2 ^ m).
Proof.
  apply lt_0_INR, Nat.neq_0_lt_0, Nat.pow_nonzero. discriminate.
Qed.

Lemma Q2R_scaled (m : nat) (x : Q) :
  Q2R (x / two_to m) = Q2R x / INR (2 ^ m).
Proof.
  rewrite Q2R_div, Q2R_two_to; [reflexivity|].
  intros H. pose proof (two_to_pos m) as Hp. rewrite H in Hp.
  now apply Qlt_irrefl in Hp.
Qed.

Lemma exp_below_le (m : nat) (x : Q) :
  (0 <= x)%Q -> Q2R (exp_below m x) <= exp (Q2R x).
Proof.
  intros Hx. unfold exp_below.
  assert (HX : 0 <= Q2R x) by (rewrite <- Q2R_0; now apply Qle_Rle).
  pose proof (INR_two_to_pos m) as HN.
  assert (Hy : 0 <= Q2R x / INR (2 ^ m))
    by (apply Rmult_le_pos; [exact HX|left; now apply Rinv_0_lt_compat]).
  assert (Hq : Q2R (1 + x / two_to m) = 1 + Q2R x / INR (2 ^ m))
    by now rewrite Q2R_plus, Q2R_1, Q2R_scaled.
  assert (H0 : (0 <= 1 + x / two_to m)%Q).
  { apply Rle_Qle. rewrite Q2R_0, Hq. lra. }
  apply Rle_trans with (Q2R (round_down (1 + x / two_to m)) ^ (2 ^ m)).
  - apply square_down_le. now apply round_down_nonneg.
  - rewrite (exp_split m (Q2R x)). apply pow_incr. split.
    + rewrite <- Q2R_0. apply Qle_Rle. now apply round_down_nonneg.
    + apply Rle_trans with (Q2R (1 + x / two_to m)).
      * apply Qle_Rle, round_down_le.
      * rewrite Hq. apply exp_ineq1_le.
Qed.

Lemma exp_le_inv_one_minus (y : R) : y < 1 -> exp y <= / (1 - y).
Proof.
  intros Hy.
  pose proof (exp_ineq1_le (- y)) as H.
  rewrite exp_Ropp in H.
  rewrite <- (Rinv_inv (exp y)).
  apply Rinv_le_contravar; lra.
Qed.

Lemma exp_above_ge (m : nat) (x : Q) :
  (0 <= x)%Q -> (x + 1 <= two_to m)%Q -> exp (Q2R x) <= Q2R (exp_above m x).
Proof.
  intros Hx Hm. unfold exp_above.
  assert (HX : 0 <= Q2R x) by (rewrite <- Q2R_0; now apply Qle_Rle).
  pose proof (INR_two_to_pos m) as HN.
  assert (HM : Q2R x + 1 <= INR (2 ^ m)).
  { rewrite <- Q2R_two_to, <- Q2R_1, <- Q2R_plus. now apply Qle_Rle. }
  set (y := Q2R x / INR (2 ^ m)).
  assert (Hy : 0 <= y < 1).
  { unfold y. split.
    - apply Rmult_le_pos; [exact HX|left; now apply Rinv_0_lt_compat].
    - apply Rmult_lt_reg_r with (INR (2 ^ m)); [exact HN|].
      unfold Rdiv. rewrite Rmult_assoc, Rinv_l by lra. lra. }
  assert (Hd : Q2R (1 - x / two_to m) = 1 - y)
    by now rewrite Q2R_minus, Q2R_1, Q2R_scaled.
  assert (Hq : Q2R (1 / (1 - x / two_to m)) = / (1 - y)).
  { rewrite Q2R_div, Q2R_1, Hd; [unfold Rdiv; ring|].
    intros H. apply Qeq_eqR in H. rewrite Hd, Q2R_0 in H. lra. }
  assert (Hpos : 0 < / (1 - y)) by (apply Rinv_0_lt_compat; lra).
  assert (H1 : (0 <= 1 / (1 - x / two_to m))%Q).
  { apply Rle_Qle. rewrite Q2R_0, Hq. lra. }
  assert (H2 : (0 <= round_up (1 / (1 - x / two_to m)))%Q)
    by (eapply Qle_trans; [exact H1|apply round_up_ge]).
  apply Rle_trans with (Q2R (round_up (1 / (1 - x / two_to m))) ^ (2 ^ m)).
  - rewrite (exp_split m (Q2R x)). fold y. apply pow_incr. split.
    + left. apply exp_pos.
    + apply Rle_trans with (/ (1 - y)).
      * apply exp_le_inv_one_minus. lra.
      * rewrite <- Hq. apply Qle_Rle, round_up_ge.
  - now apply square_up_ge.
Qed.

Lemma ln_enclosed_sound (m : nat) (lo hi a : Q) :
  ln_enclosed m lo hi a = true -> Q2R lo <= ln (Q2R a) <= Q2R hi.
Proof.
  unfold ln_enclosed. rewrite !andb_true_iff, !Qle_bool_iff.
  intros [[[[H0 Hlh] Hm] Hlo] Hhi].
  assert (Hh0 : (0 <= hi)%Q) by (eapply Qle_trans; eassumption).
  assert (Hlm : (lo + 1 <= two_to m)%Q).
  { eapply Qle_trans; [|exact Hm]. now apply Qplus_le_l. }
  pose proof (exp_above_ge H0 Hlm) as Ha.
  pose proof (exp_below_le m Hh0) as Hb.
  apply Qle_Rle in Hlo, Hhi.
  assert (Hpos : 0 < Q2R a).
  { eapply Rlt_le_trans; [apply (exp_pos (Q2R lo))|lra]. }
  split.
  - destruct (Rle_or_lt (Q2R lo) (ln (Q2R a))) as [H|H]; [exact H|].
    apply exp_increasing in H. rewrite exp_ln in H by exact Hpos. lra.
  - destruct (Rle_or_lt (ln (Q2R a)) (Q2R hi)) as [H|H]; [exact H|].
    apply exp_increasing in H. rewrite exp_ln in H by exact Hpos. lra.
Qed.

(** ** The information criteria of the recorded fit *)

Lemma ln_mean_square_residual :
  1256775209 / 100000000 <= ln (258432955 / 10 / INR 90)
  <= 1256775210 / 100000000.
Proof.
  assert (H : ln_enclosed 40 (1256775209 # 100000000)
                (1256775210 # 100000000) (258432955 # 900) = true)
    by (vm_compute; reflexivity).
  apply ln_enclosed_sound in H. unfold Q2R in H. cbn [Qnum Qden] in H.
  replace (258432955 / 10 / INR 90) with (258432955 * / 900).
  - exact H.
  - rewrite INR_IZR_INZ. simpl Z.of_nat. field.
Qed.

Lemma ln_data_points :
  449980967 / 100000000 <= ln (INR 90) <= 449980968 / 100000000.
Proof.
  assert (H : ln_enclosed 40 (449980967 # 100000000)
                (449980968 # 100000000) 90 = true)
    by (vm_compute; reflexivity).
  apply ln_enclosed_sound in H. unfold Q2R in H. cbn [Qnum Qden] in H.
  replace (INR 90) with (90 * / 1).
  - exact H.
  - rewrite INR_IZR_INZ. simpl Z.of_nat. field.
Qed.


(** ** Further properties *)

(** The rate of change of the removed compartment is non-negative whenever
    gamma and the infectious compartment are. *)
Theorem removed_rate_nonneg (z : state R) (t beta sigma gamma : R) :
  0 <= gamma -> 0 <= state_I z ->
  0 <= state_R (ode_model z t beta sigma gamma).
Proof.
  destruct z as [[[S_ E_] I_] R_]; simpl. intros Hg HI.
  now apply Rmult_le_pos.
Qed.

Lemma removed_rate_nonneg_witness :
  0 <= state_R (ode_model (997, 1, 2, 0) 0 (1 / 2) (1 / 5) (1 / 10)).
Proof.
  apply (@removed_rate_nonneg (997, 1, 2, 0) 0 (1 / 2) (1 / 5) (1 / 10));
    simpl; lra.
Defined.

(** In float64, [ode_model] at the initial state of the notebook
    (S0 = 1380000000 - 1047) with beta = 1.08 and sigma = gamma = 0.02
    evaluates to (-50.759961488608695, 30.759961488608695, 19.06,
    0.9400000000000001), the same binary64 values Python computes. *)
Theorem ode_model_day_zero_float64 :
  ode_model (1379998953, 1000, 47, 0)%float 0%float
    (value (p_beta params_float)) (value (p_sigma params_float))
    (value (p_gamma params_float))
  = (-0x1.961466b05e59cp+5, 0x1.ec28cd60bcb38p+4, 0x1.30f5c28f5c28fp+4,
     0x1.e147ae147ae15p-1)%float.
Proof. vm_compute. reflexivity. Qed.

(** The reported reduced chi-square is the chi-square over n - k' degrees
    of freedom, k' = 3 the number of free parameters, to the printed
    precision. *)
Theorem reported_redchi_degrees_of_freedom :
  let r := report_fit_statistics in
  Rabs (redchi r - chisqr r / INR (ndata r - nvarys r)) < 1 / 1000.
Proof.
  cbn [report_fit_statistics redchi chisqr ndata nvarys Nat.sub].
  replace (INR 87) with 87 by (rewrite INR_IZR_INZ; reflexivity).
  apply Rabs_def1; lra.
Qed.

(** The derived initial state holds the whole population: row 0 of the
    trajectory has S + E + I + R = N, in exact arithmetic. *)
Theorem initial_state_total {ode : OdeInt R} (t : list R)
  (initE initI initR initN : R) (params : LmfitParameters R) :
  time_grid t ->
  exists z,
    nth_error (ode_solver t (initE, initI, initR, initN) params) 0 = Some z
    /\ state_S z + state_E z + state_I z + state_R z = initN.
Proof.
  intros Ht. eexists. split.
  - unfold ode_solver. now apply odeint_first_row.
  - simpl. ring.
Qed.

Lemma initial_state_total_witness :
  exists z,
    nth_error (ode_solver (ode := euler_odeint) three_days
                 (1000, 47, 0, 1380000000) params_real) 0 = Some z
    /\ state_S z + state_E z + state_I z + state_R z = 1380000000.
Proof.
  exact (@initial_state_total euler_odeint three_days 1000 47 0 1380000000
           params_real three_days_grid).
Defined.

(** The contract of [odeint] alone does not make the removed compartment
    monotone: under the explicit Euler method with unit steps and
    gamma = 2, from E0 = 0, I0 = 1, R0 = 0 and N = 10, the infectious
    compartment overshoots below zero and R goes 0, 2, 0. *)
Lemma euler_removed_can_decrease :
  map state_R
    (ode_solver (ode := euler_odeint) three_days (0, 1, 0, 10) fast_removal)
  = [0; 2; 0].
Proof.
  simpl. repeat (f_equal; try lra).
Qed.

(** ** Day grids, ticks and the traces of [main] *)

Lemma np_arange_unit (n : nat) : np_arange 0 n 1 = seq 0 n.
Proof.
  unfold np_arange.
  rewrite Nat.sub_0_r, Nat.sub_diag, Nat.add_0_r, Nat.div_1_r.
  rewrite <- (map_id (seq 0 n)) at 2.
  apply map_ext. intros k. lia.
Qed.

Lemma ceil_div_gt (d step k : nat) :
  (1 <= step)%nat ->
  (k < (d + (step - 1)) / step)%nat <-> (k * step < d)%nat.
Proof.
  intros Hs.
  pose proof (Nat.div_mod_eq (d + (step - 1)) step) as Hdm.
  pose proof (Nat.mod_upper_bound (d + (step - 1)) step ltac:(lia)) as Hm.
  set (q := ((d + (step - 1)) / step)%nat) in *.
  set (r := ((d + (step - 1)) mod step)%nat) in *.
  split; intros H; nia.
Qed.

Lemma np_arange_In (start stop step v : nat) :
  (1 <= step)%nat ->
  In v (np_arange start stop step)
  <-> exists k, v = (start + k * step)%nat /\ (v < stop)%nat.
Proof.
  intros Hs. unfold np_arange. rewrite in_map_iff. split.
  - intros [k [<- Hk]]. apply in_seq in Hk. exists k. split; [reflexivity|].
    destruct Hk as [_ Hk]. simpl in Hk. apply ceil_div_gt in Hk; lia.
  - intros [k [-> Hk]]. exists k. split; [reflexivity|].
    apply in_seq. split; [lia|]. simpl. apply ceil_div_gt; lia.
Qed.

Lemma np_arange_length (start stop step : nat) :
  length (np_arange start stop step)
  = ((stop - start + (step - 1)) / step)%nat.
Proof. unfold np_arange. now rewrite length_map, length_seq. Qed.

Lemma tick_step_cases (days : nat) :
  ((days <= 30)%nat /\ tick_step days = 1%nat)
  \/ ((30 < days <= 90)%nat /\ tick_step days = 7%nat)
  \/ ((90 < days)%nat /\ tick_step days = 30%nat).
Proof.
  unfold tick_step.
  destruct (Nat.leb_spec days 30); [left; lia|].
  destruct (Nat.leb_spec days 90); [right; left; lia|right; right; lia].
Qed.

(** The ticks [main] puts on the day axis are exactly the multiples of the
    chosen step (1 up to 30 days, 7 up to 90, 30 beyond) from 0 up to and
    including [days]; over the range of the days slider, 0 to 600, there
    are at most 31 of them. *)
Theorem tickvals_multiples_of_step (days : nat) :
  (forall v, In v (tickvals days)
             <-> (v <= days)%nat /\ exists k, v = (k * tick_step days)%nat)
  /\ ((days <= 600)%nat -> (length (tickvals days) <= 31)%nat).
Proof.
  assert (Hs : (1 <= tick_step days)%nat)
    by (destruct (tick_step_cases days) as [[_ ->]|[[_ ->]|[_ ->]]]; lia).
  split.
  - intros v. unfold tickvals. rewrite np_arange_In by exact Hs. split.
    + intros [k [-> Hk]]. split; [lia|]. now exists k.
    + intros [Hv [k ->]]. exists k. split; lia.
  - intros Hd. unfold tickvals. rewrite np_arange_length, Nat.sub_0_r.
    destruct (tick_step_cases days) as [[H ->]|[[H ->]|[H ->]]];
      apply Nat.Div0.div_le_upper_bound; lia.
Qed.

Lemma sorted_INR_seq (a n : nat) : Sorted Rle (map INR (seq a n)).
Proof.
  revert a; induction n as [|n IH]; intros a; cbn [seq map]; constructor.
  - apply IH.
  - destruct n; cbn [seq map]; constructor. apply le_INR. lia.
Qed.

Lemma day_grid_real (days : nat) : day_grid days = map INR (seq 0 days).
Proof. unfold day_grid. now rewrite np_arange_unit. Qed.

Lemma day_grid_time_grid (days : nat) :
  (0 < days)%nat -> time_grid (day_grid days : list R).
Proof.
  intros Hd. rewrite day_grid_real. split.
  - destruct days; [lia|discriminate].
  - apply sorted_INR_seq.
Qed.

(** [np.arange(0, days, 1)] holds the [days] values 0, 1, ..., days - 1,
    and it is a grid [odeint] accepts exactly when [days] is positive: at
    0, the least value of the days slider, it is empty. *)
Theorem day_grid_valid_iff_positive (days : nat) :
  length (day_grid days : list R) = days
  /\ (forall k, (k < days)%nat ->
                nth_error (day_grid days : list R) k = Some (INR k))
  /\ (time_grid (day_grid days : list R) <-> (0 < days)%nat).
Proof.
  rewrite day_grid_real. split; [|split].
  - now rewrite length_map, length_seq.
  - intros k Hk. rewrite nth_error_map, nth_error_seq.
    destruct (Nat.ltb_spec k days); [reflexivity|lia].
  - split.
    + intros [Hne _]. destruct days; [now elim Hne|lia].
    + intros Hd. rewrite <- day_grid_real. now apply day_grid_time_grid.
Qed.

(** For a positive number of days, [main] integrates from the derived
    initial state over one point per day and draws four traces, all over
    the [days] abscissae of the grid.  In simulation mode they are
    Susceptible, Exposed, Infected and Recovered, the four columns of the
    solution; in fitting mode they are Infected and Recovered, columns 2
    and 3 of the solution, and then the two observed columns, passed on
    unchanged.  Every column of the solution has [days] entries. *)
Theorem main_traces_one_point_per_day {ode : OdeInt R}
  (set_values : LmfitParameters R -> R -> R -> R -> LmfitParameters R)
  (params : LmfitParameters R)
  (initE initI initR initN beta sigma gamma : R) (days : nat)
  (param_fitting : bool) (infected total_recovered_or_dead : list R) :
  (0 < days)%nat ->
  let sol :=
    main_solution set_values params initE initI initR initN beta sigma gamma
      days in
  let traces :=
    main_traces set_values params initE initI initR initN beta sigma gamma
      days param_fitting infected total_recovered_or_dead in
  length sol = days
  /\ nth_error sol 0 = Some (initN - (initE + initI + initR),
                             initE, initI, initR)
  /\ length (day_grid days : list R) = days
  /\ map (@scatter_x R) traces = repeat (day_grid days) 4
  /\ map (@scatter_name R) traces
     = (if param_fitting
        then ["Infected"; "Recovered"; "Infections Observed";
              "Recovered/Deceased Observed"]
        else ["Susceptible"; "Exposed"; "Infected"; "Recovered"])%string
  /\ map (@scatter_y R) traces
     = (if param_fitting
        then [map state_I sol; map state_R sol; infected;
              total_recovered_or_dead]
        else [map state_S sol; map state_E sol; map state_I sol;
              map state_R sol])
  /\ Forall (fun column => length column = days)
       [map state_S sol; map state_E sol; map state_I sol; map state_R sol].
Proof.
  intros Hd sol traces.
  pose proof (day_grid_time_grid Hd) as Hg.
  assert (Hx : length (day_grid days : list R) = days)
    by (rewrite day_grid_real; now rewrite length_map, length_seq).
  assert (Hsol : length sol = days).
  { unfold sol, main_solution.
    rewrite (ode_solver_length _ _ Hg). exact Hx. }
  split; [exact Hsol|]. split.
  { unfold sol, main_solution, ode_solver. now apply odeint_first_row. }
  split; [exact Hx|].
  unfold traces, main_traces. fold sol.
  destruct param_fitting; cbn [negb app map scatter_x scatter_name scatter_y];
    (split; [reflexivity|]); (split; [reflexivity|]);
    (split; [reflexivity|]);
    repeat constructor; now rewrite length_map.
Qed.

Lemma main_traces_one_point_per_day_witness :
  let sol :=
    main_solution (ode := euler_odeint) assign_values params_real
      1000 47 0 1380000000 (1 / 2) (1 / 5) (1 / 10) 3 in
  let traces :=
    main_traces (ode := euler_odeint) assign_values params_real
      1000 47 0 1380000000 (1 / 2) (1 / 5) (1 / 10) 3 true [47; 50] [0; 1] in
  length sol = 3%nat
  /\ nth_error sol 0 = Some (1380000000 - (1000 + 47 + 0), 1000, 47, 0)
  /\ length (day_grid 3 : list R) = 3%nat
  /\ map (@scatter_x R) traces = repeat (day_grid 3) 4
  /\ map (@scatter_name R) traces
     = ["Infected"; "Recovered"; "Infections Observed";
        "Recovered/Deceased Observed"]%string
  /\ map (@scatter_y R) traces
     = [map state_I sol; map state_R sol; [47; 50]; [0; 1]]
  /\ Forall (fun column => length column = 3%nat)
       [map state_S sol; map state_E sol; map state_I sol; map state_R sol].
Proof.
  exact (@main_traces_one_point_per_day euler_odeint assign_values params_real
           1000 47 0 1380000000 (1 / 2) (1 / 5) (1 / 10) 3 true
           [47; 50] [0; 1] ltac:(lia)).
Defined.

(** ** The observed series *)

Lemma history_rows_found (h : list HistoryEntry) :
  Forall (fun d => entry_summary d <> None) h ->
  exists rows, history_rows h = Found rows /\ length rows = length h.
Proof.
  induction 1 as [|d h Hd _ [rows [IH Hlen]]]; simpl.
  - now exists [].
  - unfold history_row. destruct (entry_summary d); [|contradiction].
    rewrite IH. eexists. split; [reflexivity|]. simpl. now rewrite Hlen.
Qed.

Lemma history_rows_key_error (h : list HistoryEntry) :
  Exists (fun d => entry_summary d = None) h ->
  history_rows h = KeyError "summary".
Proof.
  induction 1 as [d h Hd|d h _ IH]; simpl; unfold history_row.
  - now rewrite Hd.
  - destruct (entry_summary d); [|reflexivity]. now rewrite IH.
Qed.



(** ** Order and zeros of the error metrics *)

Lemma np_mean_real (l : list R) :
  np_mean l = fold_right Rplus 0 l / INR (length l).
Proof.
  unfold np_mean, np_sum; simpl. rewrite fold_left_Rplus. f_equal. ring.
Qed.

Lemma sum_abs_nonneg (l : list R) : 0 <= fold_right Rplus 0 (map Rabs l).
Proof.
  induction l as [|x l IH]; simpl; [lra|].
  pose proof (Rabs_pos x). lra.
Qed.

Lemma sum_squares_nonneg (l : list R) :
  0 <= fold_right Rplus 0 (map (fun x => x * x) l).
Proof.
  induction l as [|x l IH]; simpl; [lra|]. nra.
Qed.

Lemma sum_abs_cross (a : R) (l : list R) :
  2 * a * fold_right Rplus 0 (map Rabs l)
  <= fold_right Rplus 0 (map (fun x => x * x) l) + INR (length l) * (a * a).
Proof.
  induction l as [|x l IH]; cbn [map fold_right length].
  - simpl. lra.
  - rewrite S_INR.
    assert (Hx : Rabs x * Rabs x = x * x).
    { unfold Rabs. destruct (Rcase_abs x); ring. }
    pose proof (Rle_0_sqr (Rabs x - a)) as Hs. unfold Rsqr in Hs.
    set (y := Rabs x) in *.
    set (A := fold_right Rplus 0 (map Rabs l)) in *.
    set (Q := fold_right Rplus 0 (map (fun x => x * x) l)) in *.
    set (n := INR (length l)) in *.
    nra.
Qed.

Lemma sum_abs_squared_le (l : list R) :
  fold_right Rplus 0 (map Rabs l) * fold_right Rplus 0 (map Rabs l)
  <= INR (length l) * fold_right Rplus 0 (map (fun x => x * x) l).
Proof.
  induction l as [|x l IH]; cbn [map fold_right length].
  - simpl. lra.
  - rewrite S_INR.
    assert (Hx : Rabs x * Rabs x = x * x).
    { unfold Rabs. destruct (Rcase_abs x); ring. }
    pose proof (sum_abs_cross (Rabs x) l) as Hc. rewrite Hx in Hc.
    set (y := Rabs x) in *.
    set (A := fold_right Rplus 0 (map Rabs l)) in *.
    set (Q := fold_right Rplus 0 (map (fun x => x * x) l)) in *.
    set (n := INR (length l)) in *.
    nra.
Qed.

Lemma nonempty_length_pos {A : Type} (l : list A) : l <> [] -> 0 < INR (length l).
Proof.
  intros H. apply lt_0_INR. destruct l; [contradiction|simpl; lia].
Qed.

(** On two series of the same, non-zero length both metrics are defined
    and the mean absolute error is at least 0 and at most the root mean
    squared error. *)
Theorem mae_at_most_rmse (sim obs : list R) :
  length sim = length obs -> sim <> [] ->
  exists m r, mae sim obs = Ok m /\ rmse sim obs = Ok r /\ 0 <= m <= r.
Proof.
  intros Hlen Hne. unfold mae, rmse.
  rewrite np_binop1_same_length by exact Hlen. cbn [bind sub real_number].
  set (d := zip_with Rminus sim obs).
  assert (Hn : 0 < INR (length d)).
  { unfold d. rewrite zip_with_length by exact Hlen.
    now apply nonempty_length_pos. }
  do 2 eexists. split; [reflexivity|]. split; [reflexivity|].
  unfold np_abs, np_square. rewrite !np_mean_real, !length_map.
  cbn [absval mul sqroot real_number].
  set (n := INR (length d)) in *.
  set (A := fold_right Rplus 0 (map Rabs d)).
  set (Q := fold_right Rplus 0 (map (fun x => x * x) d)).
  pose proof (sum_abs_nonneg d) as HA. fold A in HA.
  pose proof (sum_abs_squared_le d) as HC. fold A Q n in HC.
  assert (Hm : 0 <= A / n).
  { apply Rmult_le_pos; [exact HA|left; now apply Rinv_0_lt_compat]. }
  split; [exact Hm|].
  rewrite <- (sqrt_square (A / n)) by exact Hm.
  apply sqrt_le_1_alt.
  replace (A / n * (A / n)) with (A * A * (/ n * / n)) by (field; lra).
  replace (Q / n) with (n * Q * (/ n * / n)) by (field; lra).
  apply Rmult_le_compat_r; [|exact HC].
  assert (0 < / n) by now apply Rinv_0_lt_compat. nra.
Qed.

Lemma mae_at_most_rmse_witness :
  exists m r,
    mae [1; 3; 5] [1; 2; 4] = Ok m /\ rmse [1; 3; 5] [1; 2; 4] = Ok r
    /\ 0 <= m <= r.
Proof.
  apply (@mae_at_most_rmse [1; 3; 5] [1; 2; 4]); [reflexivity|discriminate].
Defined.

Lemma sum_nonneg_zero (l : list R) :
  Forall (fun x => 0 <= x) l -> fold_right Rplus 0 l = 0 ->
  Forall (fun x => x = 0) l.
Proof.
  induction 1 as [|x l Hx Hl IH]; simpl; intros H; constructor.
  - assert (0 <= fold_right Rplus 0 l).
    { clear -Hl. induction Hl; simpl; lra. }
    lra.
  - apply IH.
    assert (0 <= fold_right Rplus 0 l).
    { clear -Hl. induction Hl; simpl; lra. }
    lra.
Qed.

Lemma differences_zero_iff (sim obs : list R) :
  length sim = length obs ->
  Forall (fun x => x = 0) (zip_with Rminus sim obs) <-> sim = obs.
Proof.
  revert obs; induction sim as [|s sim IH]; intros [|o obs] H; simpl in *;
    try discriminate.
  - split; [reflexivity|constructor].
  - injection H as H. split.
    + intros Hall. inversion Hall as [|? ? H0 Ht]; subst.
      apply IH in Ht; [|exact H]. subst. f_equal. lra.
    + intros [= -> ->]. constructor; [lra|]. now apply IH.
Qed.

Lemma sum_zero_of_zeros (l : list R) :
  Forall (fun x => x = 0) l -> fold_right Rplus 0 l = 0.
Proof. induction 1 as [|x l -> _ IH]; simpl; lra. Qed.

(** On two series of the same, non-zero length each metric is 0 exactly
    when the simulated series equals the observed one. *)
Theorem metrics_zero_iff_exact_fit (sim obs : list R) :
  length sim = length obs -> sim <> [] ->
  (mae sim obs = Ok 0 <-> sim = obs) /\ (rmse sim obs = Ok 0 <-> sim = obs).
Proof.
  intros Hlen Hne. unfold mae, rmse.
  rewrite np_binop1_same_length by exact Hlen. cbn [bind sub real_number].
  set (d := zip_with Rminus sim obs).
  assert (Hn : 0 < INR (length d)).
  { unfold d. rewrite zip_with_length by exact Hlen.
    now apply nonempty_length_pos. }
  unfold np_abs, np_square. rewrite !np_mean_real, !length_map.
  cbn [absval mul sqroot real_number].
  rewrite <- (differences_zero_iff _ _ Hlen). fold d.
  set (n := INR (length d)) in *.
  assert (Hdiv : forall a, a / n = 0 <-> a = 0).
  { intros a. split; intros H.
    - apply (Rmult_eq_compat_r n) in H. unfold Rdiv in H.
      rewrite Rmult_assoc, Rinv_l, Rmult_1_r, Rmult_0_l in H by lra. exact H.
    - subst. unfold Rdiv. ring. }
  split; split.
  - intros [= H]. apply (proj1 (Hdiv _)) in H.
    apply sum_nonneg_zero in H.
    + rewrite Forall_map in H. eapply Forall_impl; [|exact H].
      intros x Hx. simpl in Hx. unfold Rabs in Hx.
      destruct (Rcase_abs x); lra.
    + rewrite Forall_map. apply Forall_forall. intros x _. apply Rabs_pos.
  - intros H. f_equal. apply (proj2 (Hdiv _)). apply sum_zero_of_zeros.
    rewrite Forall_map. eapply Forall_impl; [|exact H].
    intros x ->. apply Rabs_R0.
  - intros [= H]. apply sqrt_eq_0 in H.
    + apply (proj1 (Hdiv _)) in H. apply sum_nonneg_zero in H.
      * rewrite Forall_map in H. eapply Forall_impl; [|exact H].
        intros x Hx. simpl in Hx. nra.
      * rewrite Forall_map. apply Forall_forall. intros x _. simpl. nra.
    + apply Rmult_le_pos; [apply sum_squares_nonneg|].
      left. now apply Rinv_0_lt_compat.
  - intros H. f_equal.
    replace (fold_right Rplus 0 (map (fun x => x * x) d) / n) with 0;
      [apply sqrt_0|].
    symmetry. apply (proj2 (Hdiv _)). apply sum_zero_of_zeros.
    rewrite Forall_map. eapply Forall_impl; [|exact H].
    intros x ->. simpl. ring.
Qed.

Lemma metrics_zero_iff_exact_fit_witness :
  (mae [1; 3; 5] [1; 3; 5] = Ok 0 <-> [1; 3; 5] = [1; 3; 5])
  /\ (rmse [1; 3; 5] [1; 3; 5] = Ok 0 <-> [1; 3; 5] = [1; 3; 5]).
Proof.
  apply (@metrics_zero_iff_exact_fit [1; 3; 5] [1; 3; 5]);
    [reflexivity|discriminate].
Defined.

(** ** The metric cells on the forecast *)

Lemma take_column_slice_length {F : Type} (c : column) (a : list (row2 F))
  (i j : nat) :
  length (take_column c (slice i j a)) = Nat.min (j - i) (length a - i).
Proof.
  unfold take_column, slice.
  now rewrite length_map, length_firstn, length_skipn.
Qed.

Lemma mae_defined (a b : list R) :
  length a = length b -> exists v, mae a b = Ok v.
Proof.
  intros H. unfold mae. rewrite np_binop1_same_length by exact H.
  eexists. reflexivity.
Qed.

Lemma rmse_defined (a b : list R) :
  length a = length b -> exists v, rmse a b = Ok v.
Proof.
  intros H. unfold rmse. rewrite np_binop1_same_length by exact H.
  eexists. reflexivity.
Qed.

(** The forecast is integrated over one day per observed row, so
    [fitted_predicted[:, 2:4]] has the shape of [observed_IR] and none of
    the four MAE and RMSE expressions raises a broadcasting error,
    whatever [days] is; a window left empty yields a NaN, not an error. *)
Theorem metric_cells_never_raise {ode : OdeInt R}
  (observed_IR : list (row2 R)) (ic : initial_conditions R)
  (params : LmfitParameters R) (c : column) (days : nat) :
  observed_IR <> [] ->
  let fitted_predicted_IR :=
    columns_2_4 (fitted_predicted observed_IR ic params) in
  length fitted_predicted_IR = length observed_IR
  /\ (exists v, fitted_mae c days fitted_predicted_IR observed_IR = Ok v)
  /\ (exists v, fitted_rmse c days fitted_predicted_IR observed_IR = Ok v)
  /\ (exists v, predicted_mae c days fitted_predicted_IR observed_IR = Ok v)
  /\ (exists v, predicted_rmse c days fitted_predicted_IR observed_IR = Ok v).
Proof.
  intros Hne sim.
  assert (Hpos : (0 < length observed_IR)%nat)
    by (destruct observed_IR; [contradiction|simpl; lia]).
  assert (Hlen : length sim = length observed_IR).
  { unfold sim, fitted_predicted.
    rewrite columns_2_4_length,
      (ode_solver_length _ _ (day_grid_time_grid Hpos)).
    rewrite day_grid_real. now rewrite length_map, length_seq. }
  split; [exact Hlen|].
  unfold fitted_mae, fitted_rmse, predicted_mae, predicted_rmse.
  rewrite (skipn_as_slice observed_IR days).
  repeat split; (apply mae_defined || apply rmse_defined);
    rewrite !take_column_slice_length, Hlen; reflexivity.
Qed.

Lemma metric_cells_never_raise_witness :
  let obs := [(47, 0); (50, 1); (60, 2)] in
  let fitted_predicted_IR :=
    columns_2_4 (fitted_predicted (ode := euler_odeint) obs
                   notebook_conditions params_real) in
  length fitted_predicted_IR = length obs
  /\ (exists v, fitted_mae Infected 2 fitted_predicted_IR obs = Ok v)
  /\ (exists v, fitted_rmse Infected 2 fitted_predicted_IR obs = Ok v)
  /\ (exists v, predicted_mae Infected 2 fitted_predicted_IR obs = Ok v)
  /\ (exists v, predicted_rmse Infected 2 fitted_predicted_IR obs = Ok v).
Proof.
  exact (@metric_cells_never_raise euler_odeint [(47, 0); (50, 1); (60, 2)]
           notebook_conditions params_real Infected 2 ltac:(discriminate)).
Defined.

(** ** Reshaping and the reconstruction on mismatched lengths *)

Section ReshapeFacts.
Context {F : Type} {num : Number F}.

Lemma pair_up_inv (v : list F) (a : list (row2 F)) :
  pair_up v = Some a -> ravel a = v.
Proof.
  revert v; induction a as [|[x y] a IH]; intros v H.
  - destruct v as [|x [|y rest]]; simpl in H; try discriminate;
      [reflexivity|].
    destruct (pair_up rest); discriminate.
  - destruct v as [|x' [|y' rest]]; simpl in H; try discriminate.
    destruct (pair_up rest) as [a'|] eqn:Hr; simpl in H; [|discriminate].
    injection H as -> -> ->. simpl. f_equal. f_equal. now apply IH.
Qed.

Lemma pair_up_even (n : nat) (v : list F) :
  length v = (2 * n)%nat -> exists a, pair_up v = Some a.
Proof.
  revert v; induction n as [|n IH]; intros v H.
  - destruct v; [now exists []|discriminate].
  - destruct v as [|x [|y rest]]; simpl in H; try lia.
    destruct (IH rest ltac:(lia)) as [a Ha].
    exists ((x, y) :: a). simpl. now rewrite Ha.
Qed.

(** [reshape] to two columns undoes [ravel] and nothing else: reshaping
    [v] to [n] rows gives [a] exactly when [a] has [n] rows and flattens
    back to [v], and it succeeds exactly when [v] has [2 n] entries;
    otherwise it raises [ValueError]. *)
Theorem reshape2_inverts_ravel (v : list F) (n : nat) :
  (forall a, reshape2 v n = Ok a <-> ravel a = v /\ length a = n)
  /\ ((exists a, reshape2 v n = Ok a) <-> length v = (2 * n)%nat)
  /\ (length v <> (2 * n)%nat -> reshape2 v n = Raise reshape_error).
Proof.
  assert (H1 : forall a, reshape2 v n = Ok a <-> ravel a = v /\ length a = n).
  { intros a. unfold reshape2. split.
    - destruct (pair_up v) as [m|] eqn:Hp; [|discriminate].
      destruct (Nat.eqb_spec (length m) n); [|discriminate].
      intros [= <-]. split; [now apply pair_up_inv|assumption].
    - intros [<- <-]. now rewrite pair_up_ravel, Nat.eqb_refl. }
  assert (H2 : (exists a, reshape2 v n = Ok a) <-> length v = (2 * n)%nat).
  { split.
    - intros [a Ha]. apply H1 in Ha. destruct Ha as [<- <-].
      apply ravel_length.
    - intros Hv. destruct (pair_up_even n v Hv) as [a Ha].
      exists a. apply H1. pose proof (pair_up_inv _ Ha) as Hr.
      split; [exact Hr|]. rewrite <- Hr, ravel_length in Hv. lia. }
  split; [exact H1|]. split; [exact H2|].
  intros Hv. unfold reshape2.
  destruct (pair_up v) as [m|] eqn:Hp; [|reflexivity].
  destruct (Nat.eqb_spec (length m) n) as [He|]; [|reflexivity].
  exfalso. apply Hv. apply pair_up_inv in Hp. rewrite <- Hp, ravel_length. lia.
Qed.

End ReshapeFacts.

(** With a time grid and data of different lengths the reconstruction
    [data + residual.reshape(data.shape)] fails whenever the grid has more
    than one point: with the broadcasting error of the subtraction when
    the data has more than one row too, and with the error of [reshape]
    when the data is a single row, whose residuals were broadcast to the
    length of the grid.  On a one-point grid it goes through, with one
    row per row of the data. *)
Theorem final_on_length_mismatch {F : Type} {num : Number F} {ode : OdeInt F}
  (params : LmfitParameters F) ic tspan data :
  time_grid tspan ->
  length tspan <> length data ->
  (length tspan <> 1%nat -> length data <> 1%nat ->
   final params ic tspan data = Raise broadcast_error)
  /\ (length tspan <> 1%nat -> length data = 1%nat ->
      final params ic tspan data = Raise reshape_error)
  /\ (length tspan = 1%nat ->
      exists m, final params ic tspan data = Ok m
                /\ length m = length data).
Proof.
  intros Ht Hne.
  pose proof (ode_solver_length ic params Ht) as Hsol.
  unfold final, error.
  set (cols := columns_2_4 (ode_solver tspan ic params)).
  assert (Hcols : length cols = length tspan).
  { unfold cols. rewrite columns_2_4_length. exact Hsol. }
  split; [|split].
  - intros H1 H2.
    rewrite np_binop2_mismatch; [reflexivity| | |]; congruence.
  - intros H1 H2. destruct data as [|rb [|rb' data]]; try discriminate.
    rewrite np_binop2_broadcast_right by congruence.
    cbn [bind length].
    set (m := map (fun ra => row_op sub ra rb) cols).
    unfold reshape2. rewrite pair_up_ravel.
    assert (Hm : length m = length tspan)
      by (unfold m; now rewrite length_map).
    destruct (Nat.eqb_spec (length m) 1); [congruence|reflexivity].
  - intros H1. rewrite <- Hcols in H1.
    destruct cols as [|ra [|ra' cols]]; try discriminate.
    rewrite np_binop2_broadcast_left by (simpl in *; congruence).
    cbn [bind].
    set (m := map (fun rb => row_op sub ra rb) data).
    assert (Hm : length m = length data)
      by (unfold m; now rewrite length_map).
    assert (Hr : reshape2 (ravel m) (length data) = Ok m)
      by (rewrite <- Hm; apply reshape2_ravel).
    rewrite Hr. cbn [bind].
    rewrite np_binop2_same_length by (symmetry; exact Hm).
    eexists. split; [reflexivity|].
    now rewrite zip_with_length by (symmetry; exact Hm).
Qed.

Lemma final_on_length_mismatch_witness :
  final (ode := euler_odeint) params_real notebook_conditions three_days
    [(47, 0); (50, 1)] = Raise broadcast_error
  /\ final (ode := euler_odeint) params_real notebook_conditions three_days
       [(47, 0)] = Raise reshape_error.
Proof.
  split.
  - apply (@final_on_length_mismatch R _ euler_odeint params_real
             notebook_conditions three_days [(47, 0); (50, 1)]);
      [exact three_days_grid|simpl; discriminate..].
  - apply (@final_on_length_mismatch R _ euler_odeint params_real
             notebook_conditions three_days [(47, 0)]);
      [exact three_days_grid|simpl; discriminate..|reflexivity].
Defined.

(** ** Zero residuals *)

Lemma ravel_all_zero (d : list (row2 R)) :
  Forall (fun x => x = 0) (ravel d)
  <-> Forall (fun r => fst r = 0 /\ snd r = 0) d.
Proof.
  induction d as [|[i r] d IH]; simpl.
  - split; constructor.
  - split; intros H.
    + inversion H as [|? ? Hi H']; subst. inversion H' as [|? ? Hr H'']; subst.
      constructor; [now split|now apply IH].
    + inversion H as [|? ? [Hi Hr] H']; subst. simpl in *.
      constructor; [exact Hi|]. constructor; [exact Hr|now apply IH].
Qed.

Lemma row_differences_zero_iff (cols data : list (row2 R)) :
  length cols = length data ->
  Forall (fun r => fst r = 0 /\ snd r = 0) (zip_with (row_op Rminus) cols data)
  <-> cols = data.
Proof.
  revert data; induction cols as [|[i r] cols IH]; intros [|[oi or] data] H;
    simpl in *; try discriminate.
  - split; [reflexivity|constructor].
  - injection H as H. split.
    + intros Hall. inversion Hall as [|? ? [Hi Hr] Ht]; subst. simpl in *.
      apply IH in Ht; [|exact H]. subst.
      do 2 f_equal; lra.
    + intros [= -> -> ->]. constructor.
      * simpl. split; lra.
      * now apply IH.
Qed.

(** For data with one row per grid point, in exact arithmetic, [error]
    returns a vector of zeros exactly when the simulated I and R columns
    equal the data: the objective of the fit vanishes only on a perfect
    fit. *)
Theorem error_zero_iff_perfect_fit {ode : OdeInt R}
  (params : LmfitParameters R) ic tspan data :
  time_grid tspan ->
  length data = length tspan ->
  (exists v, error params ic tspan data = Ok v /\ Forall (fun x => x = 0) v)
  <-> columns_2_4 (ode_solver tspan ic params) = data.
Proof.
  intros Ht Hlen.
  pose proof (ode_solver_length ic params Ht) as Hsol.
  unfold error.
  set (cols := columns_2_4 (ode_solver tspan ic params)).
  assert (Hcols : length cols = length data).
  { unfold cols. rewrite columns_2_4_length. congruence. }
  rewrite (np_binop2_same_length _ _ _ Hcols). cbn [bind sub real_number].
  rewrite <- (row_differences_zero_iff _ _ Hcols), <- ravel_all_zero.
  split.
  - intros [v [[= <-] Hv]]. exact Hv.
  - intros Hv. eexists. split; [reflexivity|exact Hv].
Qed.

Lemma error_zero_iff_perfect_fit_witness :
  (exists v,
     error (ode := euler_odeint) params_real notebook_conditions three_days
       [(47, 0); (50, 1); (60, 2)] = Ok v
     /\ Forall (fun x => x = 0) v)
  <-> columns_2_4 (ode_solver (ode := euler_odeint) three_days
                     notebook_conditions params_real)
      = [(47, 0); (50, 1); (60, 2)].
Proof.
  exact (@error_zero_iff_perfect_fit euler_odeint params_real
           notebook_conditions three_days [(47, 0); (50, 1); (60, 2)]
           three_days_grid eq_refl).
Defined.

(** ** Shape of the vector field *)

Ltac state_components := f_equal; [f_equal; [f_equal|]|].

(** The derivative is homogeneous of degree one: scaling all four
    compartments of a state with non-zero total by a non-zero factor
    scales the four rates by the same factor, so the model behaves alike
    on head counts and on population fractions. *)
Theorem ode_model_scales_with_population
  (c S_ E_ I_ R_ t beta sigma gamma : R) :
  c <> 0 -> S_ + E_ + I_ + R_ <> 0 ->
  ode_model (c * S_, c * E_, c * I_, c * R_) t beta sigma gamma
  = let d := ode_model (S_, E_, I_, R_) t beta sigma gamma in
    (c * state_S d, c * state_E d, c * state_I d, c * state_R d).
Proof.
  intros Hc HN. unfold ode_model; simpl.
  assert (HcN : c * S_ + c * E_ + c * I_ + c * R_ <> 0).
  { replace (c * S_ + c * E_ + c * I_ + c * R_)
      with (c * (S_ + E_ + I_ + R_)) by ring.
    now apply Rmult_integral_contrapositive_currified. }
  state_components; field; auto.
Qed.

Lemma ode_model_scales_with_population_witness :
  ode_model (1 / 1000 * 997, 1 / 1000 * 1, 1 / 1000 * 2, 1 / 1000 * 0) 0
    (1 / 2) (1 / 5) (1 / 10)
  = let d := ode_model (997, 1, 2, 0) 0 (1 / 2) (1 / 5) (1 / 10) in
    (1 / 1000 * state_S d, 1 / 1000 * state_E d, 1 / 1000 * state_I d,
     1 / 1000 * state_R d).
Proof.
  apply (@ode_model_scales_with_population (1 / 1000) 997 1 2 0 0
           (1 / 2) (1 / 5) (1 / 10)); lra.
Defined.

(** With non-zero incubation and removal rates, a state of non-zero total
    is at rest exactly when nobody is exposed or infectious. *)
Theorem ode_model_rest_iff_disease_free
  (S_ E_ I_ R_ t beta sigma gamma : R) :
  S_ + E_ + I_ + R_ <> 0 -> sigma <> 0 -> gamma <> 0 ->
  ode_model (S_, E_, I_, R_) t beta sigma gamma = (0, 0, 0, 0)
  <-> E_ = 0 /\ I_ = 0.
Proof.
  intros HN Hs Hg. unfold ode_model; simpl. split.
  - intros [= HdS HdE HdI HdR].
    assert (HI : I_ = 0).
    { destruct (Rmult_integral _ _ HdR); [contradiction|assumption]. }
    subst I_. split; [|reflexivity].
    assert (HE : sigma * E_ = 0) by lra.
    destruct (Rmult_integral _ _ HE); [contradiction|assumption].
  - intros [-> ->]. state_components; try field; try lra.
Qed.

Lemma ode_model_rest_iff_disease_free_witness :
  ode_model (997, 0, 0, 3) 0 (1 / 2) (1 / 5) (1 / 10) = (0, 0, 0, 0)
  <-> 0 = 0 /\ 0 = 0.
Proof.
  apply (@ode_model_rest_iff_disease_free 997 0 0 3 0 (1 / 2) (1 / 5)
           (1 / 10)); lra.
Defined.

(** With a non-negative transmission rate, on a state with non-negative
    S and I and positive total, the susceptible compartment does not
    grow, and what leaves it enters the exposed one: dS <= 0 and
    dS + dE = - sigma E. *)
Theorem susceptible_rate_nonpos (S_ E_ I_ R_ t beta sigma gamma : R) :
  0 <= beta -> 0 <= S_ -> 0 <= I_ -> 0 < S_ + E_ + I_ + R_ ->
  let d := ode_model (S_, E_, I_, R_) t beta sigma gamma in
  state_S d <= 0 /\ state_S d + state_E d = - (sigma * E_).
Proof.
  intros Hb HS HI HN. simpl. split.
  - assert (H : 0 <= beta * S_ * I_ / (S_ + E_ + I_ + R_)).
    { apply Rmult_le_pos.
      - apply Rmult_le_pos; [now apply Rmult_le_pos|exact HI].
      - left. now apply Rinv_0_lt_compat. }
    replace (- beta * S_ * I_ / (S_ + E_ + I_ + R_))
      with (- (beta * S_ * I_ / (S_ + E_ + I_ + R_))) by (field; lra).
    lra.
  - field. lra.
Qed.

Lemma susceptible_rate_nonpos_witness :
  let d := ode_model (997, 1, 2, 0) 0 (1 / 2) (1 / 5) (1 / 10) in
  state_S d <= 0 /\ state_S d + state_E d = - (1 / 5 * 1).
Proof.
  apply (@susceptible_rate_nonpos 997 1 2 0 0 (1 / 2) (1 / 5) (1 / 10)); lra.
Defined.

(** ** Exact arithmetic and float64 *)




Lemma one_day_float_grid : time_grid one_day_float.
Proof. split; [discriminate|]. repeat constructor. Qed.

(** In float64 adding the residuals back need not return the simulated
    values: on the one-point grid, where the simulated row is the initial
    state for every integrator that meets the contract, with I0 = 0.1
    and the observed row (1000, 0), the reconstruction of I is
    1000 + (0.1 - 1000) = 0x1.999999999ap-4, not 0.1. *)
Lemma final_rounds_in_float64 :
  final (ode := euler_odeint) params_float fractional_conditions
    one_day_float [(1000, 0)%float]
  = Ok [(0x1.999999999ap-4, 0)%float]
  /\ columns_2_4 (ode_solver (ode := euler_odeint) one_day_float
                    fractional_conditions params_float)
     = [(0.1, 0)%float]
  /\ PrimFloat.eqb 0x1.999999999ap-4%float 0.1%float = false.
Proof. vm_compute. repeat split. Qed.

(** C10, as the code computes it: for observed data with one row per grid
    point, [final] succeeds and holds, entry by entry,
    observed + (simulated - observed) in the arithmetic of the run, for
    any number model and any integrator that meets the contract of
    [odeint]; in exact arithmetic that is the simulated value itself, so
    [data + residual.reshape(data.shape) = sol[:, 2:4]]. *)
Theorem final_adds_residuals_back :
  (forall (F : Type) (num : Number F) (ode : OdeInt F)
          (params : LmfitParameters F) ic tspan data,
      time_grid tspan ->
      length data = length tspan ->
      final params ic tspan data
      = Ok (zip_with (row_op add) data
              (zip_with (row_op sub)
                 (columns_2_4 (ode_solver tspan ic params)) data)))
  /\ (forall (ode : OdeInt R) (params : LmfitParameters R) ic tspan data,
         time_grid tspan ->
         length data = length tspan ->
         final params ic tspan data
         = Ok (columns_2_4 (ode_solver tspan ic params))).
Proof.
  assert (Hgen : forall (F : Type) (num : Number F) (ode : OdeInt F)
            (params : LmfitParameters F) ic tspan data,
            time_grid tspan ->
            length data = length tspan ->
            final params ic tspan data
            = Ok (zip_with (row_op add) data
                    (zip_with (row_op sub)
                       (columns_2_4 (ode_solver tspan ic params)) data))).
  { intros F num ode params ic tspan data Ht Hlen.
    pose proof (ode_solver_length ic params Ht) as Hsol.
    unfold final, error.
    set (cols := columns_2_4 (ode_solver tspan ic params)).
    assert (Hcols : length cols = length data).
    { unfold cols. rewrite columns_2_4_length. congruence. }
    rewrite (np_binop2_same_length _ _ _ Hcols). cbn [bind].
    set (d := zip_with (row_op sub) cols data).
    assert (Hd : length d = length data).
    { unfold d. rewrite zip_with_length by exact Hcols. exact Hcols. }
    assert (Hr : reshape2 (ravel d) (length data) = Ok d)
      by (rewrite <- Hd; apply reshape2_ravel).
    rewrite Hr. cbn [bind].
    now rewrite np_binop2_same_length by (symmetry; exact Hd). }
  split; [exact Hgen|].
  intros ode params ic tspan data Ht Hlen.
  rewrite (Hgen R _ ode params ic tspan data Ht Hlen). f_equal.
  apply add_back_residual.
  rewrite columns_2_4_length, (ode_solver_length ic params Ht). congruence.
Qed.

Lemma final_adds_residuals_back_witness :
  final (ode := euler_odeint) params_float fractional_conditions
    one_day_float [(1000, 0)%float]
  = Ok (zip_with (row_op add) [(1000, 0)%float]
          (zip_with (row_op sub)
             (columns_2_4 (ode_solver (ode := euler_odeint) one_day_float
                             fractional_conditions params_float))
             [(1000, 0)%float]))
  /\ final (ode := euler_odeint) params_real notebook_conditions three_days
       [(47, 0); (50, 1); (60, 2)]
     = Ok (columns_2_4 (ode_solver (ode := euler_odeint) three_days
                          notebook_conditions params_real)).
Proof.
  split.
  - exact (proj1 final_adds_residuals_back float _ euler_odeint params_float
             fractional_conditions one_day_float [(1000, 0)%float]
             one_day_float_grid eq_refl).
  - exact (proj2 final_adds_residuals_back euler_odeint params_real
             notebook_conditions three_days [(47, 0); (50, 1); (60, 2)]
             three_days_grid eq_refl).
Defined.

(** ** The information criteria of a fit *)

Lemma error_length {ode : OdeInt R} (params : LmfitParameters R) ic tspan
  data v :
  time_grid tspan -> length data = length tspan ->
  error params ic tspan data = Ok v -> length v = (2 * length tspan)%nat.
Proof.
  intros Ht Hlen.
  pose proof (ode_solver_length ic params Ht) as Hsol.
  unfold error.
  assert (Hcols : length (columns_2_4 (ode_solver tspan ic params))
                  = length data)
    by (rewrite columns_2_4_length; congruence).
  rewrite (np_binop2_same_length _ _ _ Hcols). cbn [bind].
  intros [= <-].
  rewrite ravel_length, zip_with_length by exact Hcols.
  rewrite columns_2_4_length. lia.
Qed.


